(** * People Information Manager (src/app.py): a shallow embedding

    The program is a Streamlit script.  Its state lives in
    [st.session_state]; every user action re-runs [main] once with one
    widget event.  The embedding models

    - Python [str] values as sequences of Unicode code points,
    - the person dictionaries stored in [people_data],
    - the session state and the handlers of [main],
    - the content written by the two exporters,
    - the statistics, with Python's binary64 arithmetic taken from the
      Standard Library's [SpecFloat],
    - the initialisation of the session dictionary and what [main]
      renders from the store: messages, export section, sidebar charts. *)

From Stdlib Require Import ZArith NArith List Bool Lia String Ascii.
From Stdlib Require Import Floats.SpecFloat.
From Stdlib Require Import DecimalString.
From stdpp Require Import base decidable list gmap.
From stdpp Require Import strings sorting.

Import ListNotations.
Local Open Scope Z_scope.

(* ===================================================================== *)
(** * Python strings *)
(* ===================================================================== *)

Module PyStr.

(** A [str] is a sequence of code points. *)
Definition char := N.
Definition str := list char.

(** A literal of the source, written with the ASCII text it has there. *)
Definition lit (s : string) : str :=
  map N_of_ascii (list_ascii_of_string s).

(** [str.isspace] on one code point: the code points Python classifies
    as whitespace, which are the ones [str.strip()] removes. *)
Definition is_space (c : char) : bool :=
  ((9 <=? c) && (c <=? 13) || (28 <=? c) && (c <=? 32)
   || (c =? 133) || (c =? 160) || (c =? 5760)
   || (8192 <=? c) && (c <=? 8202)
   || (c =? 8232) || (c =? 8233) || (c =? 8239) || (c =? 8287)
   || (c =? 12288))%N.

(** [s.lstrip()]: drop the leading whitespace. *)
Fixpoint lstrip (s : str) : str :=
  match s with
  | [] => []
  | c :: s' => if is_space c then lstrip s' else s
  end.

(** [s.rstrip()]: drop the trailing whitespace. *)
Fixpoint rstrip (s : str) : str :=
  match s with
  | [] => []
  | c :: s' =>
      match rstrip s' with
      | [] => if is_space c then [] else [c]
      | r => c :: r
      end
  end.

(** [s.strip()]: the slice between the first and the last character that
    is not whitespace. *)
Definition strip (s : str) : str := rstrip (lstrip s).

(** Truth value of a string: non-empty. *)
Definition truthy (s : str) : bool :=
  match s with [] => false | _ => true end.

(** [str(n)] for an [int]: decimal digits, with a minus sign when negative. *)
Definition str_of_int (n : Z) : str :=
  lit (NilZero.string_of_int (Z.to_int n)).

End PyStr.

Import PyStr.

(* ===================================================================== *)
(** * Person records and the session state *)
(* ===================================================================== *)

(** The dictionary built by [add_person]; its six keys are fixed, so it is
    a record here.  [items] below gives the dictionary's entries in the
    insertion order of the literal. *)
Record person := Person {
  first_name : str;   (* 'First Name' *)
  last_name  : str;   (* 'Last Name'  *)
  age        : Z;     (* 'Age'        *)
  job_title  : str;   (* 'Job Title'  *)
  city       : str;   (* 'City'       *)
  state      : str    (* 'State'      *)
}.

(** A value held by a dictionary entry or a spreadsheet cell. *)
Inductive value :=
  | VStr (s : str)
  | VInt (n : Z).

Definition items (p : person) : list (str * value) :=
  [ (lit "First Name", VStr (first_name p));
    (lit "Last Name",  VStr (last_name p));
    (lit "Age",        VInt (age p));
    (lit "Job Title",  VStr (job_title p));
    (lit "City",       VStr (city p));
    (lit "State",      VStr (state p)) ].

(** [st.session_state].  The first three keys are created by
    [StreamlitPeopleManager.__init__] before any use; [confirm_clear] is
    only read with [.get('confirm_clear', False)], so it may be absent. *)
Record session := Session {
  people_data     : list person;
  success_message : str;
  error_message   : str;
  confirm_clear   : option bool
}.

Definition fresh_session : session :=
  {| people_data := []; success_message := []; error_message := [];
     confirm_clear := None |}.

(** [int(age)] where [age] is already an [int], as the value of
    [st.number_input] with integer bounds is. *)
Definition int_ (a : Z) : Z := a.

(** The raw values of the form, as handed to [validate_input] and
    [add_person]. *)
Record form := Form {
  f_first : str; f_last : str; f_age : Z;
  f_job : str; f_city : str; f_state : str
}.

Module Manager.

(** [validate_input]: the pair [(is_valid, error_msg)]. *)
Definition msg_missing : str := lit "Please fill in all fields!".
Definition msg_age : str := lit "Please enter a valid age (1-120)!".

Definition validate_input (i : form) : bool * str :=
  if negb (forallb truthy
             [strip (f_first i); strip (f_last i); strip (f_job i);
              strip (f_city i); strip (f_state i)])
  then (false, msg_missing)
  else if (f_age i <? 1) || (f_age i >? 120)
  then (false, msg_age)
  else (true, []).

(** [add_person]: builds the dictionary, appends it, sets the messages and
    returns [True]. *)
Definition make_person (i : form) : person :=
  {| first_name := strip (f_first i);
     last_name  := strip (f_last i);
     age        := int_ (f_age i);
     job_title  := strip (f_job i);
     city       := strip (f_city i);
     state      := strip (f_state i) |}.

Definition added_message (i : form) : str :=
  [9989%N] ++ lit " Added " ++ f_first i ++ lit " " ++ f_last i
  ++ lit " successfully!".

Definition add_person (i : form) (s : session) : bool * session :=
  (true,
   {| people_data     := people_data s ++ [make_person i];
      success_message := added_message i;
      error_message   := [];
      confirm_clear   := confirm_clear s |}).

(** [clear_messages]. *)
Definition clear_messages (s : session) : session :=
  {| people_data := people_data s; success_message := [];
     error_message := []; confirm_clear := confirm_clear s |}.

(** What [display_people_list] hands to Streamlit: an [st.info] message,
    or one [st.markdown] card per record. *)
Inductive element :=
  | Info (text : str)
  | Markdown (html : str).

Definition nl : str := [10%N].
Definition spaces (n : nat) : str := repeat 32%N n.
Definition dquote : str := [34%N].

(** The f-string of the card, with its line breaks and indentation. *)
Definition person_card (p : person) : str :=
  nl ++ spaces 12 ++ lit "<div class=" ++ dquote ++ lit "person-card"
     ++ dquote ++ lit ">"
  ++ nl ++ spaces 16 ++ lit "<strong>" ++ first_name p ++ lit " "
     ++ last_name p ++ lit "</strong><br>"
  ++ nl ++ spaces 16 ++ lit "Age: " ++ str_of_int (age p) ++ lit " "
     ++ [8226%N] ++ lit " " ++ job_title p ++ lit "<br>"
  ++ nl ++ spaces 16 ++ [128205%N] ++ lit " " ++ city p ++ lit ", "
     ++ state p
  ++ nl ++ spaces 12 ++ lit "</div>"
  ++ nl ++ spaces 12.

Definition display_people_list (s : session) : list element :=
  match people_data s with
  | [] =>
      [Info ([128221%N]
             ++ lit " No people added yet. Use the form to add your first person!")]
  | data => map (fun p => Markdown (person_card p)) data
  end.

End Manager.

Import Manager.

(* ===================================================================== *)
(** * The handlers of [main] *)
(* ===================================================================== *)

(** The [if submitted:] block of the form. *)
Definition on_submit (i : form) (s : session) : session :=
  let s := clear_messages s in
  let '(is_valid, error_msg) := validate_input i in
  if is_valid then snd (add_person i s)
  else {| people_data := people_data s;
          success_message := success_message s;
          error_message := error_msg;
          confirm_clear := confirm_clear s |}.

(** The body of [if st.button("Clear All Data")]. *)
Definition on_clear_click (s : session) : session :=
  if default false (confirm_clear s)
  then {| people_data := [];
          success_message := lit "All data cleared successfully!";
          error_message := error_message s;
          confirm_clear := Some false |}
  else {| people_data := people_data s;
          success_message := success_message s;
          error_message := error_message s;
          confirm_clear := Some true |}.

(** One run of the script is triggered by one widget event.  The download
    buttons and a plain re-run change nothing in the session state. *)
Inductive event :=
  | Submit (i : form)
  | ClickClear
  | ClickDownload.

(** One run of [main].  The clear button is inside
    [if st.session_state.people_data:], so a click on it is only handled
    when the list is not empty. *)
Definition main (ev : event) (s : session) : session :=
  match ev with
  | Submit i => on_submit i s
  | ClickClear =>
      match people_data s with
      | [] => s
      | _ :: _ => on_clear_click s
      end
  | ClickDownload => s
  end.

(** Session states reachable from a fresh session. *)
Inductive reachable : session -> Prop :=
  | reach_fresh : reachable fresh_session
  | reach_step ev s : reachable s -> reachable (main ev s).

(* ===================================================================== *)
(** * The exporters *)
(* ===================================================================== *)

(** The serialisation to bytes is done by pandas/openpyxl and python-docx,
    which are not part of the repository: a buffer is modelled by the
    content the code writes into it.  Both libraries check the text they
    are given, and an exception of theirs leaves the exporter, which has
    no handler for it. *)

(** The outcome of a call that may raise: the value returned, or an
    exception leaving the call.  Which exception it is (lxml's
    [ValueError], openpyxl's [IllegalCharacterError], ...) is not
    distinguished. *)
Inductive outcome (A : Type) :=
  | Returned (a : A)
  | Raised.
Arguments Returned {A} a.
Arguments Raised {A}.

Module Xml.

(** The characters an XML document may hold (the [Char] production of
    XML 1.0): tab, line feed, carriage return and everything from the
    space on, except the surrogates, U+FFFE and U+FFFF.  lxml, through
    which both libraries write their text, refuses any other. *)
Definition xml_char (c : char) : bool :=
  ((c =? 9) || (c =? 10) || (c =? 13)
   || (32 <=? c) && (c <=? 55295)
   || (57344 <=? c) && (c <=? 65533)
   || (65536 <=? c) && (c <=? 1114111))%N.

Definition xml_text (x : str) : bool := forallb xml_char x.

End Xml.

Import Xml.

Module Word.

(** The body of a python-docx [Document()]: a new document has an empty
    body; [add_heading] and [add_paragraph] append to it.  A paragraph is
    given by the text handed to [add_paragraph]. *)
Inductive block :=
  | Heading (text : str) (level : Z)
  | Paragraph (text : str).

Definition document := list block.

(** The f-string of [create_word_file]. *)
Definition sentence (p : person) : str :=
  first_name p ++ lit " " ++ last_name p ++ lit ", " ++ str_of_int (age p)
  ++ lit " years old, works as a " ++ job_title p ++ lit " and lives in "
  ++ city p ++ lit ", " ++ state p ++ lit ".".

(** [doc.add_paragraph(text)]: the text goes into the XML tree, which
    raises on a character XML does not allow. *)
Definition add_paragraph (text : str) (doc : document) : outcome document :=
  if xml_text text then Returned (doc ++ [Paragraph text]) else Raised.

(** The [for person in ...] loop: two [add_paragraph] calls per record. *)
Fixpoint add_people (data : list person) (doc : document) : outcome document :=
  match data with
  | [] => Returned doc
  | p :: rest =>
      match add_paragraph (sentence p) doc with
      | Raised => Raised
      | Returned doc1 =>
          match add_paragraph [] doc1 with
          | Raised => Raised
          | Returned doc2 => add_people rest doc2
          end
      end
  end.

Definition create_word_file (s : session) : outcome (option document) :=
  match people_data s with
  | [] => Returned None
  | data =>
      match add_people data [Heading (lit "People Directory") 0] with
      | Raised => Raised
      | Returned doc => Returned (Some doc)
      end
  end.

End Word.

Module Excel.

(** A cell: a value, or nothing where a dictionary lacks the column. *)
Definition cell := option value.

(** [pd.DataFrame(list_of_dicts)]: the columns are the keys in their order
    of appearance (all the dictionaries here have the keys of the first
    one), and each row holds the values looked up by column. *)
Record dataframe := DataFrame {
  columns : list str;
  rows    : list (list cell)
}.

Fixpoint dict_get (k : str) (d : list (str * value)) : cell :=
  match d with
  | [] => None
  | (k', v) :: d' => if decide (k = k') then Some v else dict_get k d'
  end.

Definition make_dataframe (data : list (list (str * value))) : dataframe :=
  let cols := match data with [] => [] | d :: _ => map fst d end in
  {| columns := cols;
     rows := map (fun d => map (fun k => dict_get k d) cols) data |}.

(** The workbook written through [pd.ExcelWriter]: one sheet, whose first
    row is the header ([index=False]: no index column), and the column
    widths set by the loop over [worksheet.columns]. *)
Record workbook := Workbook {
  sheet_name    : str;
  sheet_rows    : list (list cell);
  column_widths : list Z
}.

(** The characters openpyxl refuses in the text of a cell: the control
    characters other than tab, line feed and carriage return. *)
Definition illegal_char (c : char) : bool :=
  ((c <=? 8) || (11 <=? c) && (c <=? 12) || (14 <=? c) && (c <=? 31))%N.

(** openpyxl's check of a text put into a cell: the text is cut to its
    first 32767 characters, and an illegal character in what is left
    raises. *)
Definition max_cell_length : Z := 32767.

Definition check_string (x : str) : outcome str :=
  let x := firstn (Z.to_nat max_cell_length) x in
  if existsb illegal_char x then Raised else Returned x.

(** Setting [cell.value]. *)
Definition bind_cell (c : cell) : outcome cell :=
  match c with
  | Some (VStr x) =>
      match check_string x with
      | Raised => Raised
      | Returned x' => Returned (Some (VStr x'))
      end
  | _ => Returned c
  end.

(** Applying a call that may raise to each element in turn. *)
Fixpoint traverse {A B : Type} (f : A -> outcome B) (l : list A)
  : outcome (list B) :=
  match l with
  | [] => Returned []
  | x :: l' =>
      match f x with
      | Raised => Raised
      | Returned y =>
          match traverse f l' with
          | Raised => Raised
          | Returned l'' => Returned (y :: l'')
          end
      end
  end.

(** [df.to_excel(writer, sheet_name=..., index=False)]: pandas refuses a
    frame of more than 2^20 rows; otherwise the header and the rows are
    written cell by cell. *)
Definition max_rows : Z := 1048576.

Definition to_excel (df : dataframe) : outcome (list (list cell)) :=
  if Z.of_nat (length (rows df)) >? max_rows then Raised
  else traverse (traverse bind_cell)
         (map (fun c => Some (VStr c)) (columns df) :: rows df).

(** [str(cell.value)]. *)
Definition cell_text (c : cell) : str :=
  match c with
  | Some (VStr s) => s
  | Some (VInt n) => str_of_int n
  | None => lit "None"
  end.

Definition column_cells (j : nat) (sheet : list (list cell)) : list cell :=
  omap (fun r => r !! j) sheet.

(** [min(max_length + 2, 50)] for one column. *)
Definition adjusted_width (col : list cell) : Z :=
  let max_length :=
    fold_left (fun m c =>
                 let n := Z.of_nat (length (cell_text c)) in
                 if n >? m then n else m) col 0 in
  Z.min (max_length + 2) 50.

(** Leaving the [with pd.ExcelWriter(...)] block saves the workbook; its
    texts are written as XML. *)
Definition cell_saves (c : cell) : bool :=
  match c with
  | Some (VStr x) => xml_text x
  | _ => true
  end.

Definition saves (sheet : list (list cell)) : bool :=
  forallb (forallb cell_saves) sheet.

Definition create_excel_file (s : session) : outcome (option workbook) :=
  match people_data s with
  | [] => Returned None
  | data =>
      let df := make_dataframe (map items data) in
      match to_excel df with
      | Raised => Raised
      | Returned sheet =>
          let widths :=
            map (fun j => adjusted_width (column_cells j sheet))
                (seq 0 (length (columns df))) in
          if saves sheet
          then Returned (Some {| sheet_name := lit "People Data";
                                 sheet_rows := sheet;
                                 column_widths := widths |})
          else Raised
      end
  end.

End Excel.

(* ===================================================================== *)
(** * Python numbers *)
(* ===================================================================== *)

Module PyNum.

(** A Python [float] is an IEEE 754 binary64 number. *)
Definition prec : Z := 53.
Definition emax : Z := 1024.

(** The numbers [get_statistics] returns: an [int] or a [float]. *)
Inductive number :=
  | PyInt (n : Z)
  | PyFloat (x : spec_float).

(** An integer as the exact operand of a floating-point division. *)
Definition of_int (n : Z) : spec_float :=
  match n with
  | Z0 => S754_zero false
  | Zpos p => S754_finite false p 0
  | Zneg p => S754_finite true p 0
  end.

(** [a / b] on two [int]s: the binary64 number nearest to the quotient
    (ties to even); [ZeroDivisionError] when [b] is zero and
    [OverflowError] when the quotient is too large for a [float]. *)
Definition true_div (a b : Z) : option spec_float :=
  if b =? 0 then None
  else match SFdiv prec emax (of_int a) (of_int b) with
       | S754_infinity _ => None
       | x => Some x
       end.

(** The integer nearest to [p / q] for [q > 0], ties to the even one. *)
Definition div_half_even (p q : Z) : Z :=
  let k := p / q in
  match 2 * (p mod q) ?= q with
  | Lt => k
  | Eq => if Z.even k then k else k + 1
  | Gt => k + 1
  end.

(** [float(text)] for the decimal text of [t / 10^ndigits] with sign [s]:
    the nearest binary64 number. *)
Definition strtod (s : bool) (t : Z) (ndigits : nat) : spec_float :=
  match t with
  | 0 => S754_zero s
  | _ => SFdiv prec emax (of_int (cond_Zopp s t)) (of_int (10 ^ Z.of_nat ndigits))
  end.

(** [round(x, ndigits)] on a [float], for the small non-negative [ndigits]
    used here: the exact value of [x] is converted to the nearest decimal
    with [ndigits] digits after the point (ties to even), and that decimal
    is converted back to a [float].  Zeros, infinities and NaN are returned
    unchanged. *)
Definition float_round (x : spec_float) (ndigits : nat) : spec_float :=
  match x with
  | S754_finite s m e =>
      let p := 10 ^ Z.of_nat ndigits in
      let t := if 0 <=? e then Zpos m * 2 ^ e * p
               else div_half_even (Zpos m * p) (2 ^ (- e)) in
      strtod s t ndigits
  | _ => x
  end.

(** Numeric equality [==] between a number and the decimal [t / 10], read
    as a [float] literal. *)
Definition eq_tenths (x : number) (t : Z) : Prop :=
  match x with
  | PyInt n => 10 * n = t
  | PyFloat f => SFeqb f (strtod (t <? 0) (Z.abs t) 1) = true
  end.

End PyNum.

Import PyNum.

(* ===================================================================== *)
(** * Statistics *)
(* ===================================================================== *)

Definition sum_ages (data : list person) : Z :=
  fold_left (fun acc p => acc + age p) data 0.

(** [get_statistics]: [(total_count, round(avg_age, 1), unique_states)]. *)
Definition get_statistics (s : session) : option (Z * number * Z) :=
  match people_data s with
  | [] => Some (0, PyInt 0, 0)
  | data =>
      let total_count := Z.of_nat (length data) in
      avg_age ← true_div (sum_ages data) total_count;
      let unique_states : gset str := list_to_set (map state data) in
      Some (total_count, PyFloat (float_round avg_age 1),
            Z.of_nat (size unique_states))
  end.

(* ===================================================================== *)
(** * Predicates of the specification *)
(* ===================================================================== *)

(** Empty after leading/trailing whitespace trimming. *)
Definition blank (x : str) : Prop := strip x = [].

Definition any_blank (i : form) : Prop :=
  blank (f_first i) \/ blank (f_last i) \/ blank (f_job i)
  \/ blank (f_city i) \/ blank (f_state i).

Definition age_in_range (a : Z) : Prop := 1 <= a <= 120.

(** A valid input: every text field non-empty after trimming, age in
    [1, 120]. *)
Definition valid_form (i : form) : Prop :=
  ~ any_blank i /\ age_in_range (f_age i).

(** A validated record. *)
Definition valid_record (p : person) : Prop :=
  ~ blank (first_name p) /\ ~ blank (last_name p) /\ ~ blank (job_title p)
  /\ ~ blank (city p) /\ ~ blank (state p) /\ age_in_range (age p).

(** The three results of [validate_input], under the names of the error
    taxonomy. *)
Definition Valid : bool * str := (true, []).
Definition MissingField : bool * str := (false, msg_missing).
Definition InvalidAge : bool * str := (false, msg_age).

(** No whitespace at either end. *)
Definition starts_with_space (x : str) : bool :=
  match x with c :: _ => is_space c | [] => false end.
Definition ends_with_space (x : str) : bool :=
  match last x with Some c => is_space c | None => false end.
Definition trimmed (x : str) : Prop :=
  starts_with_space x = false /\ ends_with_space x = false.

Definition trimmed_record (p : person) : Prop :=
  trimmed (first_name p) /\ trimmed (last_name p) /\ trimmed (job_title p)
  /\ trimmed (city p) /\ trimmed (state p).

(** The two states of the clear confirmation. *)
Inductive clear_flow := Idle | ArmedForClear.

Definition flow (s : session) : clear_flow :=
  if default false (confirm_clear s) then ArmedForClear else Idle.

(** A session holding the given records and nothing else. *)
Definition session_of (data : list person) : session :=
  {| people_data := data; success_message := []; error_message := [];
     confirm_clear := None |}.

(** The store invariant: only validated records. *)
Definition store_invariant (s : session) : Prop :=
  Forall valid_record (people_data s).

(** The other state of the confirmation flow. *)
Definition toggle (c : clear_flow) : clear_flow :=
  match c with Idle => ArmedForClear | ArmedForClear => Idle end.

(* ===================================================================== *)
(** * Sample data *)
(* ===================================================================== *)

Definition ada_form : form :=
  {| f_first := lit "Ada"; f_last := lit "Lovelace"; f_age := 36;
     f_job := lit "Mathematician"; f_city := lit "London";
     f_state := lit "England" |}.

Definition ada : person :=
  {| first_name := lit "Ada"; last_name := lit "Lovelace"; age := 36;
     job_title := lit "Mathematician"; city := lit "London";
     state := lit "England" |}.

(** A form with one blank field and one with an age out of range. *)
Definition blank_city_form : form :=
  {| f_first := lit "Ada"; f_last := lit "Lovelace"; f_age := 36;
     f_job := lit "Mathematician"; f_city := lit "   ";
     f_state := lit "England" |}.

Definition old_form : form :=
  {| f_first := lit "Ada"; f_last := lit "Lovelace"; f_age := 121;
     f_job := lit "Mathematician"; f_city := lit "London";
     f_state := lit "England" |}.

(** A form that passes validation with a control character, U+0001, inside
    the first name. *)
Definition control_form : form :=
  {| f_first := lit "A" ++ [1%N] ++ lit "B"; f_last := lit "Lovelace";
     f_age := 36; f_job := lit "Mathematician"; f_city := lit "London";
     f_state := lit "England" |}.

(** A valid form with whitespace around the two names. *)
Definition padded_form : form :=
  {| f_first := lit "  Ada "; f_last := lit " Lovelace  "; f_age := 36;
     f_job := lit "Mathematician"; f_city := lit "London";
     f_state := lit "England" |}.

(** The form of a valid submission of the given age and state. *)
Definition resident_form (a : Z) (st : string) : form :=
  {| f_first := lit "Sam"; f_last := lit "Doe"; f_age := a;
     f_job := lit "Clerk"; f_city := lit "Town"; f_state := lit st |}.

(** The session after submitting the given forms, one after the other, to
    a fresh session. *)
Definition after_submits (forms : list form) : session :=
  fold_left (fun s i => main (Submit i) s) forms fresh_session.

(** Twenty valid submissions whose ages sum to 23: one of age 4 and
    nineteen of age 1. *)
Definition twenty : list form :=
  resident_form 4 "NY" :: repeat (resident_form 1 "NY") 19.

(** The location of a remainder [r] of a division by [b], as
    [SpecFloat.new_location] computes it: exact, or below, at or above the
    half. *)
Definition location_of (b r : Z) : location :=
  if r =? 0 then loc_Exact else loc_Inexact (2 * r ?= b).

(* ===================================================================== *)
(** * The reference definition of the statistics *)
(* ===================================================================== *)

Module Reference.

(** The two rounding rules the specification allows. *)
Inductive rounding := HalfEven | HalfUp.

(** The integer nearest to the rational [p / q], for [q > 0]. *)
Definition round_div (mode : rounding) (p q : Z) : Z :=
  match mode with
  | HalfEven => div_half_even p q
  | HalfUp => (2 * p + q) / (2 * q)
  end.

(** [p / q] lies exactly halfway between two integers. *)
Definition halfway (p q : Z) : Prop := 0 < q /\ 2 * (p mod q) = q.

(** The sum of the ages of the records. *)
Definition sum_of_ages (store : list person) : Z :=
  fold_right Z.add 0 (map age store).

(** The number of distinct strings of a list, under exact equality. *)
Definition distinct (l : list str) : Z := Z.of_nat (length (remove_dups l)).

(** [computeStatistics] as the specification words it; the average age is
    a decimal with one digit after the point, given in tenths. *)
Definition computeStatistics (mode : rounding) (store : list person)
  : Z * Z * Z :=
  match store with
  | [] => (0, 0, 0)
  | _ =>
      let count := Z.of_nat (length store) in
      (count,
       round_div mode (10 * sum_of_ages store) count,
       distinct (map state store))
  end.

End Reference.

(** A result of [get_statistics] agrees with a reference result when the
    counts are equal and the average is numerically equal to the
    reference decimal. *)
Definition agrees (r : option (Z * number * Z)) (ref : Z * Z * Z) : Prop :=
  match r with
  | Some (n, avg, d) => n = fst (fst ref) /\ eq_tenths avg (snd (fst ref)) /\ d = snd ref
  | None => False
  end.

(* ===================================================================== *)
(** * The rest of the script *)
(* ===================================================================== *)

Module SessionInit.

(** [st.session_state] as the dictionary it is, before the record view:
    the values the script stores under its four keys. *)
Inductive stored :=
  | SList (l : list person)
  | SStr (x : str)
  | SBool (b : bool).

(** [if key not in st.session_state: st.session_state.key = default]. *)
Definition setdefault (k : string) (v : stored) (st : gmap string stored)
  : gmap string stored :=
  match st !! k with
  | Some _ => st
  | None => <[k := v]> st
  end.

(** [StreamlitPeopleManager.__init__]. *)
Definition init (st : gmap string stored) : gmap string stored :=
  setdefault "error_message" (SStr [])
    (setdefault "success_message" (SStr [])
       (setdefault "people_data" (SList []) st)).

(** The record view of an initialised dictionary; [confirm_clear] is read
    with [.get], so it may be missing. *)
Definition load (st : gmap string stored) : option session :=
  match st !! "people_data", st !! "success_message", st !! "error_message" with
  | Some (SList l), Some (SStr ok), Some (SStr err) =>
      Some {| people_data := l; success_message := ok; error_message := err;
              confirm_clear :=
                match st !! "confirm_clear" with
                | Some (SBool b) => Some b
                | _ => None
                end |}
  | _, _, _ => None
  end.

End SessionInit.

(** The messages block of [main]: [st.success] and [st.error], each shown
    when its message is not empty. *)
Inductive banner :=
  | ShowSuccess (text : str)
  | ShowError (text : str).

Definition messages (s : session) : list banner :=
  (if truthy (success_message s) then [ShowSuccess (success_message s)] else [])
  ++ (if truthy (error_message s) then [ShowError (error_message s)] else []).

(** The export section of [main], rendered only while the store is not
    empty: the Excel download button, the Word download button and the
    clear button, in this order.  Each download button is drawn when its
    exporter returned a buffer; an exception of an exporter ends the run
    there, and nothing after it is drawn.  The timestamps come from the
    clock and are parameters. *)
Record download (A : Type) := Download {
  dl_label     : str;
  dl_data      : A;
  dl_file_name : str;
  dl_mime      : str
}.
Arguments Download {A}.
Arguments dl_label {A}.
Arguments dl_data {A}.
Arguments dl_file_name {A}.
Arguments dl_mime {A}.

Inductive widget :=
  | ExcelDownload (d : download Excel.workbook)
  | WordDownload (d : download Word.document)
  | ClearButton.

Definition excel_download (timestamp : str) (excel_buffer : Excel.workbook)
  : download Excel.workbook :=
  {| dl_label := [128202%N] ++ lit " Download Excel";
     dl_data := excel_buffer;
     dl_file_name := lit "people_data_" ++ timestamp ++ lit ".xlsx";
     dl_mime :=
       lit "application/vnd.openxmlformats-officedocument.spreadsheetml.sheet" |}.

Definition word_download (timestamp : str) (word_buffer : Word.document)
  : download Word.document :=
  {| dl_label := [128196%N] ++ lit " Download Word";
     dl_data := word_buffer;
     dl_file_name := lit "people_profiles_" ++ timestamp ++ lit ".docx";
     dl_mime :=
       lit "application/vnd.openxmlformats-officedocument.wordprocessingml.document" |}.

(** What the section has drawn, and whether the run got through it. *)
Record rendering := Rendering {
  drawn     : list widget;
  completed : bool
}.

Definition export_section (timestamp1 timestamp2 : str) (s : session)
  : rendering :=
  match people_data s with
  | [] => {| drawn := []; completed := true |}
  | _ :: _ =>
      match Excel.create_excel_file s with
      | Raised => {| drawn := []; completed := false |}
      | Returned excel_buffer =>
          let button1 :=
            match excel_buffer with
            | Some b => [ExcelDownload (excel_download timestamp1 b)]
            | None => []
            end in
          match Word.create_word_file s with
          | Raised => {| drawn := button1; completed := false |}
          | Returned word_buffer =>
              let button2 :=
                match word_buffer with
                | Some b => [WordDownload (word_download timestamp2 b)]
                | None => []
                end in
              {| drawn := button1 ++ button2 ++ [ClearButton];
                 completed := true |}
          end
      end
  end.

Module Sidebar.

(** [Series.unique()]: the distinct values, in order of first
    appearance. *)
Fixpoint unique {A : Type} `{EqDecision A} (l : list A) : list A :=
  match l with
  | [] => []
  | x :: l' => x :: List.filter (fun y => negb (bool_decide (y = x))) (unique l')
  end.

(** The number of entries equal to [a]. *)
Definition occurrences {A : Type} `{EqDecision A} (a : A) (l : list A) : nat :=
  length (List.filter (fun y => bool_decide (y = a)) l).

(** [df['Age'].value_counts().sort_index()]: each distinct age with the
    number of records that have it, by increasing age. *)
Definition age_distribution (data : list person) : list (Z * nat) :=
  let ages := map age data in
  map (fun a => (a, occurrences a ages)) (merge_sort Z.le (unique ages)).

(** [df['State'].value_counts()]: each distinct state with its number of
    records.  The order of equal counts is left to pandas, so the series is
    a finite map here. *)
Definition state_counts (data : list person) : gmap str nat :=
  let states := map state data in
  list_to_map (map (fun x => (x, occurrences x states)) (unique states)).

(** The data overview of the sidebar: nothing for an empty store;
    otherwise the age chart, and the state chart when there is more than
    one distinct state. *)
Record overview := Overview {
  age_chart   : list (Z * nat);
  state_chart : option (gmap str nat)
}.

Definition data_overview (s : session) : option overview :=
  match people_data s with
  | [] => None
  | data =>
      Some {| age_chart := age_distribution data;
              state_chart :=
                if (1 <? length (unique (map state data)))%nat
                then Some (state_counts data) else None |}
  end.

End Sidebar.

(** A stored record entered again as it is. *)
Definition form_of (p : person) : form :=
  {| f_first := first_name p; f_last := last_name p; f_age := age p;
     f_job := job_title p; f_city := city p; f_state := state p |}.

(** The submissions that [validate_input] accepts. *)
Definition accepted (i : form) : bool := fst (validate_input i).

(* ===================================================================== *)
(** * Stores the exporters accept *)
(* ===================================================================== *)

(** The five text fields hold only characters XML allows. *)
Definition clean_record (p : person) : bool :=
  xml_text (first_name p) && xml_text (last_name p)
  && xml_text (job_title p) && xml_text (city p) && xml_text (state p).

Definition clean_store (s : session) : Prop :=
  Forall (fun p => clean_record p = true) (people_data s).

(** The five text fields fit a cell uncut. *)
Definition fits_cell (x : str) : Prop :=
  Z.of_nat (length x) <= Excel.max_cell_length.

Definition fits_cells (p : person) : Prop :=
  fits_cell (first_name p) /\ fits_cell (last_name p)
  /\ fits_cell (job_title p) /\ fits_cell (city p) /\ fits_cell (state p).

(** The header row of the sheet and the row of a record. *)
Definition header_row : list Excel.cell :=
  [Some (VStr (lit "First Name")); Some (VStr (lit "Last Name"));
   Some (VStr (lit "Age")); Some (VStr (lit "Job Title"));
   Some (VStr (lit "City")); Some (VStr (lit "State"))].

Definition sheet_row (p : person) : list Excel.cell :=
  [Some (VStr (first_name p)); Some (VStr (last_name p));
   Some (VInt (age p)); Some (VStr (job_title p));
   Some (VStr (city p)); Some (VStr (state p))].

(** A text as a cell keeps it, and a record with its texts cut so. *)
Definition cut (x : str) : str := firstn (Z.to_nat Excel.max_cell_length) x.

Definition cut_record (p : person) : person :=
  {| first_name := cut (first_name p); last_name := cut (last_name p);
     age := age p; job_title := cut (job_title p);
     city := cut (city p); state := cut (state p) |}.

(** No text of the record, cut, holds a character openpyxl refuses. *)
Definition legal_record (p : person) : bool :=
  negb (existsb Excel.illegal_char (cut (first_name p)))
  && negb (existsb Excel.illegal_char (cut (last_name p)))
  && negb (existsb Excel.illegal_char (cut (job_title p)))
  && negb (existsb Excel.illegal_char (cut (city p)))
  && negb (existsb Excel.illegal_char (cut (state p))).

(** The workbook of a store whose cells are all written and saved. *)
Definition workbook_of (data : list person) : Excel.workbook :=
  let sheet := header_row :: map (fun p => sheet_row (cut_record p)) data in
  {| Excel.sheet_name := lit "People Data";
     Excel.sheet_rows := sheet;
     Excel.column_widths :=
       map (fun j => Excel.adjusted_width (Excel.column_cells j sheet))
           (seq 0 6) |}.

(* ===================================================================== *)
(** * Lemmas on [strip] *)
(* ===================================================================== *)

Section StripLemmas.

Lemma truthy_nonempty (x : str) : truthy x = true <-> x <> [].
Proof. destruct x; simpl; split; congruence. Qed.

Lemma truthy_strip_false (x : str) : truthy (strip x) = false <-> blank x.
Proof. unfold blank. destruct (strip x); simpl; split; congruence. Qed.

Lemma lstrip_head (x : str) : starts_with_space (lstrip x) = false.
Proof.
  induction x as [|c x IH]; simpl; [reflexivity|].
  destruct (is_space c) eqn:E; [exact IH|]. simpl. exact E.
Qed.

Lemma lstrip_id (x : str) : starts_with_space x = false -> lstrip x = x.
Proof. destruct x as [|c x]; simpl; [reflexivity|]. intros ->. reflexivity. Qed.

Lemma rstrip_cons (c : char) (x : str) :
  is_space c = false -> rstrip (c :: x) = c :: rstrip x.
Proof. intros E. simpl. rewrite E. destruct (rstrip x); reflexivity. Qed.

Lemma rstrip_head (x : str) :
  starts_with_space x = false -> starts_with_space (rstrip x) = false.
Proof.
  destruct x as [|c x]; [reflexivity|]. simpl starts_with_space at 1.
  intros E. rewrite (rstrip_cons _ _ E). exact E.
Qed.

Lemma rstrip_last (x : str) : ends_with_space (rstrip x) = false.
Proof.
  unfold ends_with_space.
  induction x as [|c x IH]; simpl; [reflexivity|].
  destruct (rstrip x) as [|d r] eqn:R.
  - destruct (is_space c) eqn:E; simpl; [reflexivity|exact E].
  - change (last (c :: d :: r)) with (last (d :: r)). exact IH.
Qed.

Lemma rstrip_idemp (x : str) : rstrip (rstrip x) = rstrip x.
Proof.
  induction x as [|c x IH]; simpl; [reflexivity|].
  destruct (rstrip x) as [|d r] eqn:R.
  - destruct (is_space c) eqn:E; simpl; [reflexivity|]. rewrite E. reflexivity.
  - change (rstrip (c :: d :: r))
      with (match rstrip (d :: r) with
            | [] => if is_space c then [] else [c]
            | r' => c :: r'
            end).
    rewrite IH. reflexivity.
Qed.

(** What [strip] returns has no whitespace at either end. *)
Lemma strip_trimmed (x : str) : trimmed (strip x).
Proof.
  split; unfold strip.
  - apply rstrip_head, lstrip_head.
  - apply rstrip_last.
Qed.

(** [strip] is idempotent. *)
Lemma strip_idemp (x : str) : strip (strip x) = strip x.
Proof.
  unfold strip at 1.
  rewrite (lstrip_id (strip x)) by apply strip_trimmed.
  unfold strip. apply rstrip_idemp.
Qed.

(** A string without whitespace at either end is left as it is. *)
Lemma trimmed_strip_id (x : str) : trimmed x -> strip x = x.
Proof.
  intros [Hs He]. unfold strip. rewrite (lstrip_id x Hs).
  clear Hs. unfold ends_with_space in He.
  induction x as [|c x IH]; [reflexivity|].
  destruct x as [|d x].
  - simpl in *. rewrite He. reflexivity.
  - change (last (c :: d :: x)) with (last (d :: x)) in He.
    specialize (IH He).
    change (rstrip (c :: d :: x))
      with (match rstrip (d :: x) with
            | [] => if is_space c then [] else [c]
            | r' => c :: r'
            end).
    rewrite IH. reflexivity.
Qed.

Lemma strip_not_blank (x : str) : ~ blank x -> ~ blank (strip x).
Proof. unfold blank. rewrite strip_idemp. tauto. Qed.

End StripLemmas.

Example strip_ex1 : strip (lit "  Ada Lovelace  ") = lit "Ada Lovelace".
Proof. reflexivity. Qed.

Example strip_ex2 : strip (lit "   ") = [].
Proof. reflexivity. Qed.

Example str_of_int_ex : (str_of_int 36, str_of_int 0, str_of_int (-7)) = (lit "36", lit "0", lit "-7").
Proof. reflexivity. Qed.

(* ===================================================================== *)
(** * Validation *)
(* ===================================================================== *)

Section Validation.

Lemma all_truthy_iff (i : form) :
  forallb truthy
    [strip (f_first i); strip (f_last i); strip (f_job i);
     strip (f_city i); strip (f_state i)] = true <-> ~ any_blank i.
Proof.
  unfold any_blank. simpl.
  rewrite !andb_true_iff, !truthy_nonempty. unfold blank. tauto.
Qed.

Lemma validate_input_missing (i : form) :
  any_blank i -> validate_input i = MissingField.
Proof.
  intros Hb. unfold validate_input.
  destruct (forallb truthy _) eqn:E; [|reflexivity].
  apply all_truthy_iff in E. contradiction.
Qed.

Lemma validate_input_filled (i : form) :
  ~ any_blank i ->
  validate_input i
  = if (f_age i <? 1) || (f_age i >? 120) then InvalidAge else Valid.
Proof.
  intros Hb. unfold validate_input.
  apply all_truthy_iff in Hb. rewrite Hb. reflexivity.
Qed.

Lemma validate_input_age (i : form) :
  ~ any_blank i -> ~ age_in_range (f_age i) -> validate_input i = InvalidAge.
Proof.
  intros Hb Ha. rewrite (validate_input_filled i Hb).
  unfold age_in_range in Ha.
  destruct (Z.ltb_spec (f_age i) 1); [reflexivity|].
  destruct (Z.gtb_spec (f_age i) 120); [reflexivity|]. lia.
Qed.

Lemma validate_input_valid (i : form) :
  valid_form i -> validate_input i = Valid.
Proof.
  intros [Hb Ha]. rewrite (validate_input_filled i Hb).
  unfold age_in_range in Ha.
  destruct (Z.ltb_spec (f_age i) 1); [lia|].
  destruct (Z.gtb_spec (f_age i) 120); [lia|]. reflexivity.
Qed.

Lemma any_blank_dec (i : form) : any_blank i \/ ~ any_blank i.
Proof.
  destruct (forallb truthy
    [strip (f_first i); strip (f_last i); strip (f_job i);
     strip (f_city i); strip (f_state i)]) eqn:E.
  - right. now apply all_truthy_iff.
  - left. destruct (all_truthy_iff i) as [_ H].
    unfold any_blank, blank in *.
    destruct (strip (f_first i)); [tauto|].
    destruct (strip (f_last i)); [tauto|].
    destruct (strip (f_job i)); [tauto|].
    destruct (strip (f_city i)); [tauto|].
    destruct (strip (f_state i)); [tauto|].
    discriminate E.
Qed.

Lemma results_distinct :
  Valid <> MissingField /\ Valid <> InvalidAge /\ MissingField <> InvalidAge.
Proof. repeat split; discriminate. Qed.

Lemma validate_input_accepts (i : form) :
  validate_input i = Valid -> valid_form i.
Proof.
  intros E. destruct (any_blank_dec i) as [Hb|Hb].
  - rewrite (validate_input_missing i Hb) in E. discriminate E.
  - split; [exact Hb|]. rewrite (validate_input_filled i Hb) in E.
    unfold age_in_range.
    destruct (Z.ltb_spec (f_age i) 1); [discriminate E|].
    destruct (Z.gtb_spec (f_age i) 120); [discriminate E|]. lia.
Qed.

End Validation.

Example validate_ada : validate_input ada_form = Valid.
Proof. reflexivity. Qed.

Example validate_blank_city : validate_input blank_city_form = MissingField.
Proof. reflexivity. Qed.

Example validate_old : validate_input old_form = InvalidAge.
Proof. reflexivity. Qed.

(** A blank field wins over an age out of range. *)
Example validate_blank_and_old :
  validate_input
    {| f_first := lit " "; f_last := lit "Lovelace"; f_age := 0;
       f_job := lit "Mathematician"; f_city := lit "London";
       f_state := lit "England" |} = MissingField.
Proof. reflexivity. Qed.

(** C3. [validate_input] classifies every input as the error taxonomy
    says: it returns the missing-field failure exactly when one of the
    five text fields is empty after trimming (whatever the age), the
    invalid-age failure exactly when all five are non-empty after trimming
    and the age is outside [1, 120], and success exactly in the remaining
    case. *)
Theorem validate_input_classification (i : form) :
  (validate_input i = MissingField <-> any_blank i) /\
  (validate_input i = InvalidAge
     <-> ~ any_blank i /\ ~ age_in_range (f_age i)) /\
  (validate_input i = Valid <-> valid_form i).
Proof.
  destruct results_distinct as (D1 & D2 & D3).
  assert (Hage : age_in_range (f_age i) \/ ~ age_in_range (f_age i))
    by (unfold age_in_range; lia).
  unfold valid_form.
  destruct (any_blank_dec i) as [Hb|Hb].
  - rewrite (validate_input_missing i Hb).
    split; [|split]; split; intros H; try tauto; try congruence.
  - destruct Hage as [Ha|Ha].
    + rewrite (validate_input_valid i (conj Hb Ha)).
      split; [|split]; split; intros H; try tauto; try congruence.
    + rewrite (validate_input_age i Hb Ha).
      split; [|split]; split; intros H; try tauto; try congruence.
Qed.

(* ===================================================================== *)
(** * Submitting the form *)
(* ===================================================================== *)

Section Submit.

Lemma make_person_valid (i : form) : valid_form i -> valid_record (make_person i).
Proof.
  intros [Hb Ha]. unfold any_blank in Hb.
  unfold valid_record, make_person, int_; simpl.
  repeat split; try (apply strip_not_blank; tauto); apply Ha.
Qed.

Lemma make_person_trimmed (i : form) : trimmed_record (make_person i).
Proof. unfold trimmed_record, make_person; simpl. repeat split; apply strip_trimmed. Qed.

Lemma on_submit_valid (i : form) (s : session) :
  validate_input i = Valid ->
  on_submit i s
  = {| people_data := people_data s ++ [make_person i];
       success_message := added_message i;
       error_message := [];
       confirm_clear := confirm_clear s |}.
Proof. intros E. unfold on_submit. rewrite E. reflexivity. Qed.

Lemma on_submit_rejected (i : form) (s : session) (m : str) :
  validate_input i = (false, m) ->
  on_submit i s
  = {| people_data := people_data s;
       success_message := [];
       error_message := m;
       confirm_clear := confirm_clear s |}.
Proof. intros E. unfold on_submit. rewrite E. reflexivity. Qed.

(** Whatever the input, a submit either appends the record made from it
    or leaves the list as it is. *)
Lemma on_submit_cases (i : form) (s : session) :
  (valid_form i /\ people_data (on_submit i s) = people_data s ++ [make_person i])
  \/ people_data (on_submit i s) = people_data s.
Proof.
  destruct (validate_input i) as [[|] m] eqn:E.
  - left. assert (Hv : validate_input i = Valid).
    { rewrite E. unfold validate_input in E.
      destruct (negb _); [discriminate|].
      destruct (_ || _); [discriminate|]. symmetry. exact E. }
    split; [exact (validate_input_accepts i Hv)|].
    rewrite (on_submit_valid i s Hv). reflexivity.
  - right. rewrite (on_submit_rejected i s m E). reflexivity.
Qed.

Lemma on_submit_confirm (i : form) (s : session) :
  confirm_clear (on_submit i s) = confirm_clear s.
Proof.
  unfold on_submit. destruct (validate_input i) as [[|] m]; reflexivity.
Qed.

End Submit.

(** C8. For every input whose five text fields are non-empty after
    trimming and whose age is in [1, 120], [validate_input] succeeds, and
    [add_person] succeeds ([True]), lengthens the store by exactly one and
    puts the new record at the end; the submit handler does exactly
    that. *)
Theorem valid_input_is_appended (i : form) (s : session) :
  valid_form i ->
  validate_input i = Valid /\
  fst (add_person i s) = true /\
  people_data (snd (add_person i s)) = people_data s ++ [make_person i] /\
  length (people_data (snd (add_person i s))) = S (length (people_data s)) /\
  main (Submit i) s = snd (add_person (i) (clear_messages s)) /\
  people_data (main (Submit i) s) = people_data s ++ [make_person i].
Proof.
  intros Hv. pose proof (validate_input_valid i Hv) as E.
  repeat split; try assumption.
  - simpl. rewrite length_app. simpl. lia.
  - simpl. unfold on_submit. rewrite E. reflexivity.
  - simpl. rewrite (on_submit_valid i s E). reflexivity.
Qed.

Lemma ada_form_valid : valid_form ada_form.
Proof.
  split.
  - unfold any_blank, blank. vm_compute. intuition discriminate.
  - unfold age_in_range. simpl. lia.
Defined.

Lemma valid_input_is_appended_witness :
  valid_form ada_form /\
  people_data (main (Submit ada_form) fresh_session) = [ada].
Proof.
  split; [exact ada_form_valid|].
  apply (valid_input_is_appended ada_form fresh_session ada_form_valid).
Defined.

(** C4. For every submitted input that validation rejects (a text field
    empty after trimming, or an age outside [1, 120]) the submit handler
    leaves the store exactly as it was: the list of records is the same
    list, and the only change to the session is the error message (the
    success message being cleared). *)
Theorem rejected_submit_keeps_store (i : form) (s : session) :
  any_blank i \/ ~ age_in_range (f_age i) ->
  people_data (main (Submit i) s) = people_data s /\
  confirm_clear (main (Submit i) s) = confirm_clear s /\
  success_message (main (Submit i) s) = [] /\
  error_message (main (Submit i) s) = snd (validate_input i) /\
  (error_message (main (Submit i) s) = msg_missing
   \/ error_message (main (Submit i) s) = msg_age).
Proof.
  intros Hrej.
  assert (E : validate_input i = MissingField \/ validate_input i = InvalidAge).
  { destruct (any_blank_dec i) as [Hb|Hb].
    - left. now apply validate_input_missing.
    - right. apply validate_input_age; tauto. }
  simpl.
  destruct E as [E|E]; rewrite E; rewrite (on_submit_rejected i s _ E); simpl; tauto.
Qed.

Lemma rejected_submit_keeps_store_witness :
  (any_blank blank_city_form \/ ~ age_in_range (f_age blank_city_form)) /\
  people_data (main (Submit blank_city_form) (session_of [ada])) = [ada].
Proof.
  assert (H : any_blank blank_city_form \/ ~ age_in_range (f_age blank_city_form)).
  { left. unfold any_blank, blank. do 3 right. left. reflexivity. }
  split; [exact H|].
  apply (rejected_submit_keeps_store blank_city_form (session_of [ada]) H).
Defined.

(* ===================================================================== *)
(** * Invariants of the store *)
(* ===================================================================== *)

Section Invariants.

(** A property of records that the records made by [add_person] from a
    valid input have is kept by every run of [main]. *)
Variable P : person -> Prop.
Hypothesis P_made : forall i, valid_form i -> P (make_person i).

Lemma main_preserves (ev : event) (s : session) :
  Forall P (people_data s) -> Forall P (people_data (main ev s)).
Proof.
  intros H. destruct ev as [i| |]; simpl.
  - destruct (on_submit_cases i s) as [[Hv E]|E]; rewrite E; [|exact H].
    apply Forall_app. split; [exact H|]. repeat constructor. now apply P_made.
  - destruct (people_data s) eqn:D; [rewrite D; constructor|].
    unfold on_clear_click. destruct (default false (confirm_clear s)); simpl.
    + constructor.
    + rewrite D. exact H.
  - exact H.
Qed.

Lemma reachable_all (s : session) : reachable s -> Forall P (people_data s).
Proof.
  induction 1 as [|ev s _ IH]; [constructor|]. now apply main_preserves.
Qed.

End Invariants.

(** C5. The store invariant: the initial store is empty, every run of
    [main] (a submit, which validates, a click on the clear button, or any
    other event) keeps the property that every stored record has its five
    text fields non-empty after trimming and its age in [1, 120], and
    hence every reachable store is empty or holds validated records
    only. *)
Theorem store_invariant_reachable :
  people_data fresh_session = [] /\
  (forall ev s, store_invariant s -> store_invariant (main ev s)) /\
  (forall s, reachable s -> store_invariant s).
Proof.
  split; [reflexivity|]. split.
  - intros ev s. apply main_preserves. exact make_person_valid.
  - intros s. apply reachable_all. exact make_person_valid.
Qed.

(** C10, as the code has it.  [add_person] stores the trimmed form of
    every text field and [int(age)]: the appended record is the one made
    of the stripped inputs.  Hence no record of a reachable store has
    whitespace at the start or the end of a text field, and the exported
    sentence of the record, the values handed to the spreadsheet for it
    and the card shown for it are built from the stripped values.  The
    success message that [add_person] sets is the exception: it names the
    person with the first and last name as they were typed. *)
Theorem add_person_stores_trimmed :
  (forall i s,
     people_data (snd (add_person i s))
     = people_data s ++
       [ {| first_name := strip (f_first i); last_name := strip (f_last i);
            age := f_age i; job_title := strip (f_job i);
            city := strip (f_city i); state := strip (f_state i) |} ]) /\
  (forall s, reachable s -> Forall trimmed_record (people_data s)) /\
  (forall s p, reachable s -> In p (people_data s) ->
     strip (first_name p) = first_name p /\ strip (last_name p) = last_name p /\
     strip (job_title p) = job_title p /\ strip (city p) = city p /\
     strip (state p) = state p) /\
  (forall i,
     Word.sentence (make_person i)
     = strip (f_first i) ++ lit " " ++ strip (f_last i) ++ lit ", "
       ++ str_of_int (f_age i) ++ lit " years old, works as a "
       ++ strip (f_job i) ++ lit " and lives in " ++ strip (f_city i)
       ++ lit ", " ++ strip (f_state i) ++ lit ".") /\
  (forall i,
     map snd (items (make_person i))
     = [VStr (strip (f_first i)); VStr (strip (f_last i)); VInt (f_age i);
        VStr (strip (f_job i)); VStr (strip (f_city i));
        VStr (strip (f_state i))]) /\
  (forall i,
     person_card (make_person i)
     = nl ++ spaces 12 ++ lit "<div class=" ++ dquote ++ lit "person-card"
          ++ dquote ++ lit ">"
       ++ nl ++ spaces 16 ++ lit "<strong>" ++ strip (f_first i) ++ lit " "
          ++ strip (f_last i) ++ lit "</strong><br>"
       ++ nl ++ spaces 16 ++ lit "Age: " ++ str_of_int (f_age i) ++ lit " "
          ++ [8226%N] ++ lit " " ++ strip (f_job i) ++ lit "<br>"
       ++ nl ++ spaces 16 ++ [128205%N] ++ lit " " ++ strip (f_city i)
          ++ lit ", " ++ strip (f_state i)
       ++ nl ++ spaces 12 ++ lit "</div>"
       ++ nl ++ spaces 12) /\
  (forall i s,
     success_message (snd (add_person i s))
     = [9989%N] ++ lit " Added " ++ f_first i ++ lit " " ++ f_last i
       ++ lit " successfully!").
Proof.
  assert (R : forall s, reachable s -> Forall trimmed_record (people_data s)).
  { intros s. apply reachable_all. intros i _. apply make_person_trimmed. }
  split; [reflexivity|]. split; [exact R|]. split.
  - intros s p Hs Hin. specialize (R s Hs). rewrite Forall_forall in R.
    destruct (R p) as (T1 & T2 & T3 & T4 & T5); [now apply list_elem_of_In|].
    repeat split; now apply trimmed_strip_id.
  - repeat split; reflexivity.
Qed.

(** C10, as stated, fails for the displayed output: a valid submit with
    whitespace around the two names stores the trimmed record, but the
    success message shown after it carries the names with their
    whitespace. *)
Lemma success_message_keeps_whitespace :
  validate_input padded_form = Valid /\
  people_data (main (Submit padded_form) fresh_session) = [ada] /\
  messages (main (Submit padded_form) fresh_session)
  = [ShowSuccess ([9989%N] ++ lit " Added   Ada   Lovelace   successfully!")] /\
  success_message (main (Submit padded_form) fresh_session)
  <> [9989%N] ++ lit " Added " ++ strip (f_first padded_form) ++ lit " "
     ++ strip (f_last padded_form) ++ lit " successfully!".
Proof. vm_compute. repeat split; discriminate. Qed.

(* ===================================================================== *)
(** * The clear confirmation *)
(* ===================================================================== *)

Section ClearFlow.

Lemma fresh_is_idle : flow fresh_session = Idle.
Proof. reflexivity. Qed.

Lemma on_clear_click_idle (s : session) :
  flow s = Idle ->
  flow (on_clear_click s) = ArmedForClear
  /\ people_data (on_clear_click s) = people_data s.
Proof.
  unfold flow, on_clear_click.
  destruct (default false (confirm_clear s)); [discriminate|]. now split.
Qed.

Lemma on_clear_click_armed (s : session) :
  flow s = ArmedForClear ->
  flow (on_clear_click s) = Idle /\ people_data (on_clear_click s) = [].
Proof.
  unfold flow, on_clear_click.
  destruct (default false (confirm_clear s)); [|discriminate]. now split.
Qed.

Lemma submit_keeps_flow (i : form) (s : session) :
  flow (on_submit i s) = flow s.
Proof. unfold flow. now rewrite on_submit_confirm. Qed.

End ClearFlow.

(** Two clicks in a row empty a store that was not empty. *)
Example two_clicks_clear :
  people_data (main ClickClear (main ClickClear (session_of [ada]))) = []
  /\ flow (main ClickClear (main ClickClear (session_of [ada]))) = Idle.
Proof. split; reflexivity. Qed.

(** C9, as the code has it.  The confirmation is a two-state machine:
    a click on the clear button (shown while the store is not empty)
    moves Idle to ArmedForClear and leaves the store as it is, and moves
    ArmedForClear to Idle and empties the store.  No other event changes
    the state of the confirmation: after a submit or a download it is
    what it was, armed if it was armed. *)
Theorem clear_flow_transitions (ev : event) (s : session) :
  flow fresh_session = Idle /\
  flow (main ev s)
  = match ev, people_data s with
    | ClickClear, _ :: _ => toggle (flow s)
    | _, _ => flow s
    end /\
  people_data (main ClickClear s)
  = match flow s with
    | Idle => people_data s
    | ArmedForClear => []
    end.
Proof.
  split; [reflexivity|]. split.
  - destruct ev as [i| |]; simpl.
    + apply submit_keeps_flow.
    + destruct (people_data s); [reflexivity|].
      destruct (flow s) eqn:F.
      * now apply on_clear_click_idle.
      * now apply on_clear_click_armed.
    + reflexivity.
  - simpl. destruct (people_data s) eqn:D.
    + rewrite D. now destruct (flow s).
    + destruct (flow s) eqn:F.
      * rewrite <- D. now apply on_clear_click_idle.
      * now apply on_clear_click_armed.
Qed.

(** C9, as stated, fails: with one record stored, a click on the clear
    button arms the confirmation; a submit, which is an unrelated action,
    leaves it armed, and the next click empties the store, the new record
    included. *)
Lemma armed_flag_survives_submit :
  flow (main ClickClear (session_of [ada])) = ArmedForClear /\
  flow (main (Submit ada_form) (main ClickClear (session_of [ada]))) <> Idle /\
  people_data (main (Submit ada_form) (main ClickClear (session_of [ada])))
  = [ada; ada] /\
  people_data
    (main ClickClear
       (main (Submit ada_form) (main ClickClear (session_of [ada])))) = [].
Proof. vm_compute. repeat split; discriminate. Qed.

(* ===================================================================== *)
(** * The exporters *)
(* ===================================================================== *)

Section Exporters.

Lemma forallb_of_Forall {A : Type} (f : A -> bool) (l : list A) :
  Forall (fun x => f x = true) l -> forallb f l = true.
Proof. induction 1 as [|x l Hx _ IH]; simpl; [reflexivity|]. now rewrite Hx. Qed.

(** The decimal text of an integer holds digits and a sign only. *)
Lemma string_of_uint_xml (d : Decimal.uint) :
  xml_text (lit (NilEmpty.string_of_uint d)) = true.
Proof. induction d; simpl; try reflexivity; exact IHd. Qed.

Lemma nilzero_string_xml (d : Decimal.uint) :
  xml_text (lit (NilZero.string_of_uint d)) = true.
Proof.
  unfold NilZero.string_of_uint.
  destruct d; try reflexivity; apply (string_of_uint_xml (_ d)).
Qed.

Lemma str_of_int_xml (n : Z) : xml_text (str_of_int n) = true.
Proof.
  unfold str_of_int, NilZero.string_of_int.
  destruct (Z.to_int n) as [d|d].
  - apply nilzero_string_xml.
  - change (xml_text (lit (String "-" (NilZero.string_of_uint d))))
      with (xml_char 45%N && xml_text (lit (NilZero.string_of_uint d))).
    now rewrite nilzero_string_xml.
Qed.

(** The sentence is accepted exactly when the five fields are. *)
Lemma sentence_xml (p : person) :
  xml_text (Word.sentence p) = clean_record p.
Proof.
  unfold Word.sentence, clean_record, xml_text.
  rewrite !forallb_app.
  change (forallb xml_char (str_of_int (age p))) with (xml_text (str_of_int (age p))).
  rewrite str_of_int_xml.
  change (forallb xml_char (lit " ")) with true.
  change (forallb xml_char (lit ", ")) with true.
  change (forallb xml_char (lit " years old, works as a ")) with true.
  change (forallb xml_char (lit " and lives in ")) with true.
  change (forallb xml_char (lit ".")) with true.
  destruct (forallb xml_char (first_name p)), (forallb xml_char (last_name p)),
    (forallb xml_char (job_title p)), (forallb xml_char (city p)),
    (forallb xml_char (state p)); reflexivity.
Qed.

Lemma add_people_spec (data : list person) (doc : Word.document) :
  Word.add_people data doc
  = if forallb clean_record data
    then Returned
           (doc ++ flat_map
                     (fun p => [Word.Paragraph (Word.sentence p);
                                Word.Paragraph []])
                     data)
    else Raised.
Proof.
  revert doc. induction data as [|p data IH]; intros doc; simpl.
  - now rewrite app_nil_r.
  - unfold Word.add_paragraph. rewrite sentence_xml.
    destruct (clean_record p); [|reflexivity]. simpl.
    rewrite IH. destruct (forallb clean_record data); [|reflexivity].
    now rewrite <- !app_assoc.
Qed.

(** What [create_word_file] does on a store that is not empty. *)
Lemma word_outcome (s : session) :
  people_data s <> [] ->
  Word.create_word_file s
  = if forallb clean_record (people_data s)
    then Returned
           (Some (Word.Heading (lit "People Directory") 0
                  :: flat_map
                       (fun p => [Word.Paragraph (Word.sentence p);
                                  Word.Paragraph []])
                       (people_data s)))
    else Raised.
Proof.
  intros Hne. unfold Word.create_word_file.
  destruct (people_data s) as [|p data] eqn:D; [contradiction|].
  rewrite add_people_spec.
  destruct (forallb clean_record (p :: data)); reflexivity.
Qed.

Lemma dataframe_columns (p : person) (data : list person) :
  Excel.columns (Excel.make_dataframe (map items (p :: data)))
  = [lit "First Name"; lit "Last Name"; lit "Age"; lit "Job Title";
     lit "City"; lit "State"].
Proof. reflexivity. Qed.

Lemma dataframe_row (p : person) :
  map (fun k => Excel.dict_get k (items p))
      [lit "First Name"; lit "Last Name"; lit "Age"; lit "Job Title";
       lit "City"; lit "State"]
  = sheet_row p.
Proof. destruct p. vm_compute. reflexivity. Qed.

Lemma dataframe_rows (p : person) (data : list person) :
  Excel.rows (Excel.make_dataframe (map items (p :: data)))
  = map sheet_row (p :: data).
Proof.
  unfold Excel.make_dataframe, Excel.rows.
  change (map fst (items p))
    with [lit "First Name"; lit "Last Name"; lit "Age"; lit "Job Title";
          lit "City"; lit "State"].
  rewrite map_map. apply map_ext. intros q. apply dataframe_row.
Qed.

(** A character openpyxl refuses is not an XML character either. *)
Lemma illegal_not_xml (c : char) :
  Excel.illegal_char c = true -> xml_char c = false.
Proof.
  unfold Excel.illegal_char, xml_char. intros H.
  repeat match goal with
         | |- context [N.leb ?a ?b] => destruct (N.leb_spec a b)
         | |- context [N.eqb ?a ?b] => destruct (N.eqb_spec a b)
         | H : context [N.leb ?a ?b] |- _ => destruct (N.leb_spec a b)
         end; simpl in *; try reflexivity; try discriminate; lia.
Qed.

Lemma xml_text_legal (x : str) :
  xml_text x = true -> existsb Excel.illegal_char x = false.
Proof.
  unfold xml_text. induction x as [|c x IH]; simpl; [reflexivity|].
  intros H. apply andb_true_iff in H as [Hc Hx]. rewrite (IH Hx).
  destruct (Excel.illegal_char c) eqn:E; [|reflexivity].
  apply illegal_not_xml in E. congruence.
Qed.


Lemma xml_text_cut (x : str) : xml_text x = true -> xml_text (cut x) = true.
Proof.
  unfold xml_text, cut. generalize (Z.to_nat Excel.max_cell_length).
  induction x as [|c x IH]; intros n H; destruct n; simpl; try reflexivity.
  simpl in H. apply andb_true_iff in H as [-> Hx]. simpl. now apply IH.
Qed.

Lemma check_string_cut (x : str) :
  Excel.check_string x
  = if existsb Excel.illegal_char (cut x) then Raised else Returned (cut x).
Proof. reflexivity. Qed.

(** Writing the header row. *)
Lemma bind_header :
  Excel.traverse Excel.bind_cell
    (map (fun c => Some (VStr c))
       [lit "First Name"; lit "Last Name"; lit "Age"; lit "Job Title";
        lit "City"; lit "State"])
  = Returned header_row.
Proof. vm_compute. reflexivity. Qed.

(** Writing the row of a record. *)
Lemma bind_sheet_row (p : person) :
  Excel.traverse Excel.bind_cell (sheet_row p)
  = if legal_record p then Returned (sheet_row (cut_record p)) else Raised.
Proof.
  unfold sheet_row, legal_record, cut_record. cbn [Excel.traverse Excel.bind_cell].
  cbn [first_name last_name age job_title city state].
  rewrite !check_string_cut.
  destruct (existsb Excel.illegal_char (cut (first_name p)));
    destruct (existsb Excel.illegal_char (cut (last_name p)));
    destruct (existsb Excel.illegal_char (cut (job_title p)));
    destruct (existsb Excel.illegal_char (cut (city p)));
    destruct (existsb Excel.illegal_char (cut (state p))); reflexivity.
Qed.

Lemma bind_sheet_rows (data : list person) :
  Excel.traverse (Excel.traverse Excel.bind_cell) (map sheet_row data)
  = if forallb legal_record data
    then Returned (map (fun p => sheet_row (cut_record p)) data)
    else Raised.
Proof.
  induction data as [|p data IH]; [reflexivity|].
  cbn [map Excel.traverse forallb]. rewrite bind_sheet_row, IH.
  destruct (legal_record p); [|reflexivity].
  destruct (forallb legal_record data); reflexivity.
Qed.

Lemma saves_rows (data : list person) :
  Excel.saves (header_row :: map (fun p => sheet_row (cut_record p)) data)
  = forallb (fun p => clean_record (cut_record p)) data.
Proof.
  unfold Excel.saves. cbn [forallb].
  change (forallb Excel.cell_saves header_row) with true. cbn [andb].
  induction data as [|p data IH]; [reflexivity|].
  cbn [map forallb]. rewrite IH. f_equal.
  unfold sheet_row, clean_record. cbn [forallb Excel.cell_saves].
  destruct (xml_text (first_name (cut_record p))),
    (xml_text (last_name (cut_record p))),
    (xml_text (job_title (cut_record p))),
    (xml_text (city (cut_record p))),
    (xml_text (state (cut_record p))); reflexivity.
Qed.

(** What [create_excel_file] does on a store that is not empty. *)
Lemma excel_outcome (s : session) :
  people_data s <> [] ->
  Excel.create_excel_file s
  = if Z.of_nat (length (people_data s)) >? Excel.max_rows then Raised
    else if forallb legal_record (people_data s)
    then if forallb (fun p => clean_record (cut_record p)) (people_data s)
         then Returned (Some (workbook_of (people_data s)))
         else Raised
    else Raised.
Proof.
  intros Hne. unfold Excel.create_excel_file.
  destruct (people_data s) as [|p data] eqn:D; [contradiction|].
  cbv zeta. unfold Excel.to_excel.
  rewrite dataframe_rows, dataframe_columns, length_map.
  destruct (Z.of_nat (length (p :: data)) >? Excel.max_rows); [reflexivity|].
  change (Excel.traverse ?f (?h :: ?t))
    with (match f h with
          | Raised => Raised
          | Returned y =>
              match Excel.traverse f t with
              | Raised => Raised
              | Returned l => Returned (y :: l)
              end
          end).
  rewrite bind_header, bind_sheet_rows.
  destruct (forallb legal_record (p :: data)); [|reflexivity].
  rewrite saves_rows.
  destruct (forallb (fun q => clean_record (cut_record q)) (p :: data));
    reflexivity.
Qed.


Lemma clean_record_cut (p : person) :
  clean_record p = true ->
  legal_record p = true /\ clean_record (cut_record p) = true.
Proof.
  unfold clean_record, legal_record, cut_record; simpl. intros Hc.
  repeat (apply andb_true_iff in Hc as [Hc ?]).
  rewrite !xml_text_cut by assumption.
  rewrite !xml_text_legal by (now apply xml_text_cut). now split.
Qed.

End Exporters.

(** C2, as the code has it.  For every non-empty store whose text fields
    hold only characters that XML allows, [create_word_file] returns a
    document whose content is the title "People Directory" followed, for
    each record in insertion order, by the sentence
    "{first} {last}, {age} years old, works as a {job} and lives in
    {city}, {state}." and an empty paragraph.  For the record of Ada
    Lovelace the sentence is exactly
    "Ada Lovelace, 36 years old, works as a Mathematician and lives in
    London, England.". *)
Theorem create_word_file_content (s : session) :
  people_data s <> [] -> clean_store s ->
  Word.create_word_file s
  = Returned
      (Some (Word.Heading (lit "People Directory") 0
             :: flat_map
                  (fun p =>
                     [Word.Paragraph
                        (first_name p ++ lit " " ++ last_name p ++ lit ", "
                         ++ str_of_int (age p) ++ lit " years old, works as a "
                         ++ job_title p ++ lit " and lives in " ++ city p
                         ++ lit ", " ++ state p ++ lit ".");
                      Word.Paragraph []])
                  (people_data s)))
  /\ Word.create_word_file (session_of [ada])
     = Returned
         (Some [Word.Heading (lit "People Directory") 0;
                Word.Paragraph
                  (lit "Ada Lovelace, 36 years old, works as a Mathematician and lives in London, England.");
                Word.Paragraph []]).
Proof.
  intros Hne Hclean. split; [|reflexivity].
  rewrite (word_outcome s Hne), (forallb_of_Forall _ _ Hclean). reflexivity.
Qed.

Lemma create_word_file_content_witness :
  people_data (main (Submit ada_form) fresh_session) <> [] /\
  clean_store (main (Submit ada_form) fresh_session) /\
  Word.create_word_file (main (Submit ada_form) fresh_session)
  = Returned
      (Some [Word.Heading (lit "People Directory") 0;
             Word.Paragraph
               (lit "Ada Lovelace, 36 years old, works as a Mathematician and lives in London, England.");
             Word.Paragraph []]).
Proof.
  assert (H : people_data (main (Submit ada_form) fresh_session) <> [])
    by discriminate.
  assert (C : clean_store (main (Submit ada_form) fresh_session))
    by (repeat constructor).
  split; [exact H|]. split; [exact C|].
  exact (proj1 (create_word_file_content _ H C)).
Defined.

(** C2, as stated, fails.  A form with the control character U+0001
    inside the first name passes [validate_input]; on the store that
    holds its record, which is not empty, [create_word_file] returns no
    document: [doc.add_paragraph] raises on the sentence. *)
Lemma word_export_raises_on_control_character :
  validate_input control_form = Valid /\
  people_data (main (Submit control_form) fresh_session)
  = [make_person control_form] /\
  xml_text (Word.sentence (make_person control_form)) = false /\
  Word.create_word_file (main (Submit control_form) fresh_session) = Raised.
Proof. vm_compute. repeat split. Qed.


Lemma ada_store_accepted :
  people_data (main (Submit ada_form) fresh_session) <> [] /\
  clean_store (main (Submit ada_form) fresh_session) /\
  Forall fits_cells (people_data (main (Submit ada_form) fresh_session)) /\
  Z.of_nat (length (people_data (main (Submit ada_form) fresh_session)))
  < Excel.max_rows.
Proof.
  split; [discriminate|]. split; [repeat constructor|].
  split; [|reflexivity].
  repeat constructor; unfold fits_cell; vm_compute; discriminate.
Defined.



(** C7, as the code has it.  Each exporter returns [None] exactly when
    the store has no record.  On a store that is not empty it never
    returns [None]: it returns a buffer whenever the text fields hold only
    characters that XML allows (and, for the spreadsheet, the store has
    fewer than 2^20 records). *)
Theorem exporters_none_iff_empty (s : session) :
  (Excel.create_excel_file s = Returned None <-> people_data s = []) /\
  (Word.create_word_file s = Returned None <-> people_data s = []) /\
  (people_data s <> [] -> clean_store s ->
   exists doc, Word.create_word_file s = Returned (Some doc)) /\
  (people_data s <> [] -> clean_store s ->
   Z.of_nat (length (people_data s)) < Excel.max_rows ->
   exists wb, Excel.create_excel_file s = Returned (Some wb)).
Proof.
  assert (D : people_data s = [] \/ people_data s <> [])
    by (destruct (people_data s); [now left|now right]).
  split; [|split; [|split]].
  - destruct D as [E|Hne].
    + unfold Excel.create_excel_file. rewrite E. tauto.
    + rewrite (excel_outcome s Hne). split; [|tauto].
      destruct (_ >? _); [discriminate|].
      destruct (forallb legal_record _); [|discriminate].
      destruct (forallb _ _); discriminate.
  - destruct D as [E|Hne].
    + unfold Word.create_word_file. rewrite E. tauto.
    + rewrite (word_outcome s Hne). split; [|tauto].
      destruct (forallb clean_record _); discriminate.
  - intros Hne Hclean. rewrite (word_outcome s Hne).
    rewrite (forallb_of_Forall _ _ Hclean). eexists. reflexivity.
  - intros Hne Hclean Hrows. rewrite (excel_outcome s Hne).
    replace (Z.of_nat (length (people_data s)) >? Excel.max_rows) with false
      by (symmetry; rewrite Z.gtb_ltb; apply Z.ltb_ge; lia).
    assert (H : Forall (fun p => legal_record p = true
                                 /\ clean_record (cut_record p) = true)
                  (people_data s)).
    { eapply Forall_impl; [exact Hclean|]. simpl. apply clean_record_cut. }
    rewrite (forallb_of_Forall legal_record)
      by (eapply Forall_impl; [exact H|]; simpl; tauto).
    rewrite (forallb_of_Forall (fun p => clean_record (cut_record p)))
      by (eapply Forall_impl; [exact H|]; simpl; tauto).
    eexists. reflexivity.
Qed.

Lemma exporters_none_iff_empty_witness :
  (exists doc,
     Word.create_word_file (main (Submit ada_form) fresh_session)
     = Returned (Some doc)) /\
  (exists wb,
     Excel.create_excel_file (main (Submit ada_form) fresh_session)
     = Returned (Some wb)).
Proof.
  destruct ada_store_accepted as (H1 & H2 & _ & H4).
  destruct (exporters_none_iff_empty (main (Submit ada_form) fresh_session))
    as (_ & _ & W & X).
  split; [exact (W H1 H2)|exact (X H1 H2 H4)].
Defined.

(** C7, as stated, fails.  The session reached by one valid submit with
    the control character U+0001 inside the first name has a store that
    is not empty and validated, and on it neither exporter returns a
    buffer, nor [None]: both raise. *)
Lemma exporters_raise_on_validated_store :
  reachable (main (Submit control_form) fresh_session) /\
  store_invariant (main (Submit control_form) fresh_session) /\
  people_data (main (Submit control_form) fresh_session) <> [] /\
  Word.create_word_file (main (Submit control_form) fresh_session) = Raised /\
  Excel.create_excel_file (main (Submit control_form) fresh_session) = Raised.
Proof.
  assert (R : reachable (main (Submit control_form) fresh_session))
    by (apply reach_step, reach_fresh).
  split; [exact R|].
  split; [exact (reachable_all valid_record make_person_valid _ R)|].
  split; [discriminate|]. split; vm_compute; reflexivity.
Qed.
(* ===================================================================== *)
(** * Binary64 division of two integers *)
(* ===================================================================== *)

Section FloatDivision.

Lemma digits2_pos_bounds (p : positive) :
  2 ^ (Zpos (digits2_pos p) - 1) <= Zpos p < 2 ^ Zpos (digits2_pos p).
Proof.
  induction p as [p IH|p IH|]; simpl digits2_pos.
  - rewrite Pos2Z.inj_succ.
    replace (Z.succ (Zpos (digits2_pos p)) - 1) with (Z.succ (Zpos (digits2_pos p) - 1)) by lia.
    rewrite !Z.pow_succ_r by lia. lia.
  - rewrite Pos2Z.inj_succ.
    replace (Z.succ (Zpos (digits2_pos p)) - 1) with (Z.succ (Zpos (digits2_pos p) - 1)) by lia.
    rewrite !Z.pow_succ_r by lia. lia.
  - simpl. lia.
Qed.

(** The number of binary digits of a number between [2^(d-1)] and [2^d]. *)
Lemma Zdigits2_unique (q d : Z) :
  0 < d -> 2 ^ (d - 1) <= q < 2 ^ d -> Zdigits2 q = d.
Proof.
  intros Hd [Hlo Hhi].
  assert (Hq : 0 < q) by (pose proof (Z.pow_pos_nonneg 2 (d - 1)); lia).
  destruct q as [|p|p]; try lia. simpl.
  pose proof (digits2_pos_bounds p) as [Blo Bhi].
  set (d' := Zpos (digits2_pos p)) in *.
  assert (0 < d') by (unfold d'; lia).
  destruct (Z.lt_trichotomy d' d) as [L|[E|G]]; [|exact E|].
  - assert (2 ^ d' <= 2 ^ (d - 1)) by (apply Z.pow_le_mono_r; lia). lia.
  - assert (2 ^ d <= 2 ^ (d' - 1)) by (apply Z.pow_le_mono_r; lia). lia.
Qed.

Lemma new_location_spec (b r : Z) :
  0 < b -> 0 <= r < b -> new_location b r = location_of b r.
Proof.
  intros Hb Hr. unfold new_location, location_of.
  destruct (Z.even b) eqn:Ev.
  - reflexivity.
  - unfold new_location_odd. destruct (r =? 0); [reflexivity|]. f_equal.
    assert (Z.odd b = true) by (rewrite <- Z.negb_even, Ev; reflexivity).
    apply Z.odd_spec in H. destruct H as [c ->].
    destruct (Z.compare_spec (2 * r + 1) (2 * c + 1));
      destruct (Z.compare_spec (2 * r) (2 * c + 1)); lia || reflexivity.
Qed.


Lemma round_nearest_even_spec (q r b : Z) :
  0 < b -> 0 <= r < b ->
  let M := round_nearest_even q (location_of b r) in
  (M = q \/ M = q + 1) /\ - b <= 2 * (M * b - (q * b + r)) <= b.
Proof.
  intros Hb Hr. unfold location_of, round_nearest_even.
  destruct (Z.eqb_spec r 0) as [->|Hr0]; [lia|].
  destruct (Z.compare_spec (2 * r) b); [destruct (Z.even q)| |]; lia.
Qed.

Lemma shr_1_spec (q : Z) (r s : bool) :
  2 <= q ->
  shr_1 {| shr_m := q; shr_r := r; shr_s := s |}
  = {| shr_m := q / 2; shr_r := Z.odd q; shr_s := r || s |}.
Proof.
  intros Hq. destruct q as [|p|p]; try lia.
  destruct p as [p|p|]; try lia; unfold shr_1.
  - f_equal. rewrite <- Z.div2_div. reflexivity.
  - f_equal. rewrite <- Z.div2_div. reflexivity.
Qed.

Lemma loc_of_record_of_loc (m b r : Z) :
  loc_of_shr_record (shr_record_of_loc m (location_of b r)) = location_of b r
  /\ shr_m (shr_record_of_loc m (location_of b r)) = m.
Proof.
  unfold location_of. destruct (r =? 0); [now split|].
  destruct (2 * r ?= b); now split.
Qed.

Lemma round_after_shift_spec (q r b : Z) :
  2 <= q -> 0 < b -> 0 <= r < b ->
  let mrs := shr_1 (shr_record_of_loc q (location_of b r)) in
  let M := round_nearest_even (shr_m mrs) (loc_of_shr_record mrs) in
  (M = q / 2 \/ M = q / 2 + 1)
  /\ - (2 * b) <= 2 * (M * (2 * b) - (q * b + r)) <= 2 * b.
Proof.
  intros Hq Hb Hr.
  assert (Hdiv : q = 2 * (q / 2) + (if Z.odd q then 1 else 0)).
  { rewrite (Z.div_mod q 2) at 1 by lia. rewrite Zmod_odd. reflexivity. }
  set (q' := q / 2) in *.
  assert (E : shr_1 (shr_record_of_loc q (location_of b r))
              = {| shr_m := q'; shr_r := Z.odd q;
                   shr_s := negb (r =? 0) |}).
  { unfold location_of. destruct (Z.eqb_spec r 0).
    - apply (shr_1_spec q false false Hq).
    - destruct (2 * r ?= b).
      + apply (shr_1_spec q true false Hq).
      + apply (shr_1_spec q false true Hq).
      + apply (shr_1_spec q true true Hq). }
  cbv zeta. rewrite E. cbn [shr_m]. unfold loc_of_shr_record, round_nearest_even.
  destruct (Z.odd q); destruct (Z.eqb_spec r 0); cbn [negb];
    try destruct (Z.even q'); lia.
Qed.

(** The second shift of [binary_round_aux]: a carry to [2^53] is brought
    back to 53 digits. *)
Lemma shr_fexp_exact_spec (M e : Z) :
  2 ^ 52 <= M <= 2 ^ 53 -> -1074 <= e ->
  exists M' c,
    shr_fexp prec emax M e loc_Exact
    = ({| shr_m := M'; shr_r := false; shr_s := false |}, e + c)
    /\ 0 <= c <= 1 /\ M' * 2 ^ c = M /\ 2 ^ 52 <= M' < 2 ^ 53.
Proof.
  intros HM He. unfold shr_fexp.
  destruct (Z.eq_dec M (2 ^ 53)) as [->|Hne].
  - exists (2 ^ 52), 1.
    replace (Zdigits2 (2 ^ 53)) with 54 by reflexivity.
    unfold fexp, prec, emax, emin.
    replace (Z.max (54 + e - 53) (3 - 1024 - 53) - e) with 1 by lia.
    split; [reflexivity|]. split; [lia|]. split; [reflexivity|]. lia.
  - exists M, 0.
    rewrite (Zdigits2_unique M 53) by lia.
    unfold fexp, prec, emax, emin.
    replace (Z.max (53 + e - 53) (3 - 1024 - 53) - e) with 0 by lia.
    split; [simpl; now rewrite Z.add_0_r|]. split; [lia|]. split; lia.
Qed.


(** [binary_round_aux] on a quotient [q] of 53 or 54 digits with the
    location of its remainder: the result is a normal number whose
    mantissa is a nearest integer to the exact quotient at its scale. *)
Lemma binary_round_aux_spec (q r b e : Z) :
  2 ^ 52 <= q < 2 ^ 54 -> 0 < b -> 0 <= r < b -> -1074 <= e <= 900 ->
  exists (M : positive) (k : Z),
    binary_round_aux prec emax false q e (location_of b r)
    = S754_finite false M (e + k)
    /\ 0 <= k <= 2 /\ 2 ^ 52 <= Zpos M < 2 ^ 53
    /\ - (b * 2 ^ k) <= 2 * (Zpos M * (b * 2 ^ k) - (q * b + r)) <= b * 2 ^ k.
Proof.
  intros Hq Hb Hr He. unfold binary_round_aux.
  destruct (Z.lt_ge_cases q (2 ^ 53)) as [Hlt|Hge].
  - (* 53 digits: no first shift *)
    assert (S1 : shr_fexp prec emax q e (location_of b r)
                 = (shr_record_of_loc q (location_of b r), e)).
    { unfold shr_fexp. rewrite (Zdigits2_unique q 53) by lia.
      unfold fexp, prec, emax, emin.
      replace (Z.max (53 + e - 53) (3 - 1024 - 53) - e) with 0 by lia.
      reflexivity. }
    rewrite S1. destruct (loc_of_record_of_loc q b r) as [-> ->].
    pose proof (round_nearest_even_spec q r b Hb Hr) as [HM Herr].
    set (M0 := round_nearest_even q (location_of b r)) in *.
    destruct (shr_fexp_exact_spec M0 e) as (M' & c & S2 & Hc & HM' & Hn);
      [lia|lia|].
    rewrite S2. cbn [shr_m].
    destruct M' as [|M|M]; try lia.
    exists M, c. replace (e + c <=? emax - prec) with true
      by (symmetry; apply Z.leb_le; unfold emax, prec; lia).
    split; [reflexivity|]. split; [lia|]. split; [lia|].
    assert (Ec : c = 0 \/ c = 1) by lia.
    destruct Ec as [-> | ->]; change (2 ^ 0) with 1 in *;
      change (2 ^ 1) with 2 in *; lia.
  - (* 54 digits: one first shift *)
    assert (S1 : shr_fexp prec emax q e (location_of b r)
                 = (shr_1 (shr_record_of_loc q (location_of b r)), e + 1)).
    { unfold shr_fexp. rewrite (Zdigits2_unique q 54) by lia.
      unfold fexp, prec, emax, emin.
      replace (Z.max (54 + e - 53) (3 - 1024 - 53) - e) with 1 by lia.
      reflexivity. }
    rewrite S1.
    pose proof (round_after_shift_spec q r b ltac:(lia) Hb Hr) as [HM Herr].
    cbv zeta in HM, Herr.
    set (M0 := round_nearest_even _ _) in *.
    assert (Hq2 : 2 ^ 52 <= q / 2 < 2 ^ 53).
    { split; [apply Z.div_le_lower_bound; lia|apply Z.div_lt_upper_bound; lia]. }
    destruct (shr_fexp_exact_spec M0 (e + 1)) as (M' & c & S2 & Hc & HM' & Hn);
      [lia|lia|].
    rewrite S2. cbn [shr_m].
    destruct M' as [|M|M]; try lia.
    exists M, (1 + c). replace (e + 1 + c <=? emax - prec) with true
      by (symmetry; apply Z.leb_le; unfold emax, prec; lia).
    split; [f_equal; lia|]. split; [lia|]. split; [lia|].
    assert (Ec : c = 0 \/ c = 1) by lia.
    destruct Ec as [-> | ->]; change (2 ^ 0) with 1 in *;
      change (2 ^ 1) with 2 in *; change (2 ^ (1 + 0)) with 2;
      change (2 ^ (1 + 1)) with 4; lia.
Qed.

End FloatDivision.

Section TrueDiv.

(** The quotient of two positive integers below [2^53] is a normal
    binary64 number [M * 2^(k - s)]: [a * 2^s / b] has 53 or 54 binary
    digits, and [M] is a nearest integer to [a * 2^s / (b * 2^k)]. *)
Lemma true_div_finite (a b : Z) :
  0 < a < 2 ^ 53 -> 0 < b < 2 ^ 53 ->
  exists (M : positive) (s k : Z),
    true_div a b = Some (S754_finite false M (k - s))
    /\ 1 <= s /\ 0 <= k <= 2 /\ 2 ^ 52 <= Zpos M < 2 ^ 53
    /\ 2 ^ 52 * b <= a * 2 ^ s
    /\ - (b * 2 ^ k) <= 2 * (Zpos M * (b * 2 ^ k) - a * 2 ^ s) <= b * 2 ^ k.
Proof.
  intros Ha Hb.
  destruct a as [|pa|pa]; try lia. destruct b as [|pb|pb]; try lia.
  unfold true_div. replace (Zpos pb =? 0) with false by reflexivity.
  unfold of_int, SFdiv, SFdiv_core_binary. cbn [xorb Zdigits2].
  pose proof (digits2_pos_bounds pa) as Da.
  pose proof (digits2_pos_bounds pb) as Db.
  set (d1 := Zpos (digits2_pos pa)) in *.
  set (d2 := Zpos (digits2_pos pb)) in *.
  assert (Hd1 : 1 <= d1 <= 53).
  { split; [unfold d1; lia|].
    destruct (Z.le_gt_cases d1 53) as [L|G]; [exact L|].
    assert (2 ^ 53 <= 2 ^ (d1 - 1)) by (apply Z.pow_le_mono_r; lia). lia. }
  assert (Hd2 : 1 <= d2 <= 53).
  { split; [unfold d2; lia|].
    destruct (Z.le_gt_cases d2 53) as [L|G]; [exact L|].
    assert (2 ^ 53 <= 2 ^ (d2 - 1)) by (apply Z.pow_le_mono_r; lia). lia. }
  replace (Z.min (fexp prec emax (d1 + 0 - (d2 + 0))) (0 - 0))
    with (d1 - d2 - 53) by (unfold fexp, prec, emax, emin; lia).
  set (e := d1 - d2 - 53).
  set (s := 0 - 0 - e).
  assert (Hs : 1 <= s <= 105) by (unfold s, e; lia).
  assert (Em : match s with
               | 0 => Zpos pa
               | Zpos _ => Z.shiftl (Zpos pa) s
               | Zneg _ => 0
               end = Zpos pa * 2 ^ s).
  { destruct s as [|ps|ps] eqn:Es; try lia. apply Z.shiftl_mul_pow2. lia. }
  rewrite Em. set (A := Zpos pa * 2 ^ s) in *.
  pose proof (Z_div_mod A (Zpos pb) ltac:(lia)) as Hdm.
  destruct (Z.div_eucl A (Zpos pb)) as [q r]. destruct Hdm as [HA Hr].
  rewrite (new_location_spec (Zpos pb) r) by lia.
  (* the quotient has 53 or 54 digits *)
  assert (P1 : 2 ^ (d1 - 1) * 2 ^ s = 2 ^ 52 * 2 ^ d2).
  { rewrite <- !Z.pow_add_r by lia. f_equal. unfold s, e. lia. }
  assert (P2 : 2 ^ d1 * 2 ^ s = 2 ^ 54 * 2 ^ (d2 - 1)).
  { rewrite <- !Z.pow_add_r by lia. f_equal. unfold s, e. lia. }
  assert (Ps : 0 < 2 ^ s) by (apply Z.pow_pos_nonneg; lia).
  assert (L : 2 ^ 52 * 2 ^ d2 <= A) by (unfold A; nia).
  assert (U : A < 2 ^ 54 * 2 ^ (d2 - 1)) by (unfold A; nia).
  assert (Hq : 2 ^ 52 <= q < 2 ^ 54) by (split; nia).
  destruct (binary_round_aux_spec q r (Zpos pb) e Hq ltac:(lia) Hr)
    as (M & k & -> & Hk & HM & Herr); [unfold e; lia|].
  exists M, s, k. replace (k - s) with (e + k) by (unfold s; lia).
  split; [reflexivity|]. split; [lia|]. split; [exact Hk|].
  split; [exact HM|]. split; [lia|].
  replace (q * Zpos pb + r) with A in Herr by lia. exact Herr.
Qed.

(** With the dividend below [2^50] the exponent is negative. *)
Lemma true_div_spec (a b : Z) :
  0 < a < 2 ^ 50 -> 0 < b < 2 ^ 53 ->
  exists (M : positive) (E : Z),
    true_div a b = Some (S754_finite false M E)
    /\ E < 0 /\ 2 ^ 52 <= Zpos M < 2 ^ 53
    /\ - b <= 2 * (Zpos M * b - a * 2 ^ (- E)) <= b.
Proof.
  intros Ha Hb.
  destruct (true_div_finite a b ltac:(lia) Hb)
    as (M & s & k & -> & Hs & Hk & HM & Hlow & Herr).
  assert (H3 : 3 <= s).
  { destruct (Z.le_gt_cases 3 s) as [L|G]; [exact L|].
    assert (2 ^ s <= 2 ^ 2) by (apply Z.pow_le_mono_r; lia).
    change (2 ^ 2) with 4 in *. nia. }
  exists M, (k - s). split; [reflexivity|]. split; [lia|].
  split; [exact HM|].
  assert (EA : a * 2 ^ s = a * 2 ^ (- (k - s)) * 2 ^ k).
  { rewrite <- Z.mul_assoc, <- Z.pow_add_r by lia. do 2 f_equal. lia. }
  set (A' := a * 2 ^ (- (k - s))) in *. rewrite EA in Herr.
  assert (Ek : k = 0 \/ k = 1 \/ k = 2) by lia.
  destruct Ek as [-> | [-> | ->]];
    [change (2 ^ 0) with 1 in Herr|change (2 ^ 1) with 2 in Herr
     |change (2 ^ 2) with 4 in Herr]; lia.
Qed.

(** Python's [==] holds between a finite [float] and itself. *)
Lemma SFeqb_finite_refl (s : bool) (m : positive) (e : Z) :
  SFeqb (S754_finite s m e) (S754_finite s m e) = true.
Proof.
  unfold SFeqb, SFcompare. rewrite Z.compare_refl.
  assert (H : Pos.compare_cont Eq m m = Eq) by apply Pos.compare_refl.
  rewrite H. destruct s; reflexivity.
Qed.

(** The [float] of a positive number of tenths is finite. *)
Lemma strtod_finite (t : Z) :
  0 < t < 2 ^ 53 ->
  exists (M : positive) (E : Z), strtod false t 1 = S754_finite false M E.
Proof.
  intros Ht.
  destruct (true_div_finite t 10 Ht ltac:(lia)) as (M & s & k & E & _).
  exists M, (k - s). unfold strtod. destruct t as [|p|p]; try lia.
  unfold true_div in E. change (10 =? 0) with false in E.
  change (10 ^ Z.of_nat 1) with 10. cbn [cond_Zopp].
  destruct (SFdiv prec emax (of_int (Zpos p)) (of_int 10));
    try discriminate E; now inversion E.
Qed.

End TrueDiv.

Section Rounding.

Lemma div_half_even_between (p q t : Z) :
  0 < q -> (2 * t - 1) * q < 2 * p < (2 * t + 1) * q ->
  div_half_even p q = t.
Proof.
  intros Hq [Hlo Hhi]. unfold div_half_even.
  pose proof (Z.div_mod p q ltac:(lia)) as E.
  pose proof (Z.mod_pos_bound p q Hq) as Hr.
  set (k := p / q) in *. set (r := p mod q) in *.
  assert (Hk : k = t - 1 \/ k = t) by nia.
  destruct (Z.compare_spec (2 * r) q); destruct Hk as [-> | ->];
    try destruct (Z.even _); nia.
Qed.

Lemma div_half_even_within (p q k : Z) :
  0 < q -> k * q <= p <= (k + 1) * q ->
  div_half_even p q = k \/ div_half_even p q = k + 1.
Proof.
  intros Hq [Hlo Hhi]. unfold div_half_even.
  pose proof (Z.div_mod p q ltac:(lia)) as E.
  pose proof (Z.mod_pos_bound p q Hq) as Hr.
  set (k' := p / q) in *. set (r := p mod q) in *.
  assert (Hk : k' = k \/ (k' = k + 1 /\ r = 0)) by nia.
  destruct (Z.compare_spec (2 * r) q); destruct Hk as [-> | [-> ->]];
    try destruct (Z.even _); lia.
Qed.

(** Rounding the rounded quotient to tenths.  [M / N] is the binary64
    quotient of [a] by [b]; when [20 * a < 2^53] its rounding to an integer
    number of tenths is the rounding of the exact [10 * a / b], except
    that an exact half may go either way. *)
Lemma tenths_of_quotient (a b M N : Z) :
  0 < a -> 0 < b -> 20 * a < 2 ^ 53 -> 0 < N -> 2 ^ 52 <= M ->
  - b <= 2 * (M * b - a * N) <= b ->
  let t := div_half_even (M * 10) N in
  let k := (10 * a) / b in
  let r := (10 * a) mod b in
  (2 * r < b -> t = k) /\ (b < 2 * r -> t = k + 1)
  /\ (2 * r = b -> t = k \/ t = k + 1).
Proof.
  intros Ha Hb Hsum HN HM Herr.
  pose proof (Z.div_mod (10 * a) b ltac:(lia)) as E.
  pose proof (Z.mod_pos_bound (10 * a) b Hb) as Hr.
  cbv zeta. set (k := (10 * a) / b) in *. set (r := (10 * a) mod b) in *.
  (* the scale of the quotient is fine enough *)
  assert (HNb : 10 * b < N).
  { assert (10 * (a * N) <= (2 ^ 52 - 1) * N) by nia.
    assert ((2 ^ 53 - 1) * b <= 2 * (a * N)) by nia.
    nia. }
  assert (E10 : 10 * (a * N) = k * (b * N) + r * N) by nia.
  assert (Hlo : 20 * (M * b) >= 2 * k * (b * N) + 2 * (r * N) - 10 * b) by lia.
  assert (Hhi : 20 * (M * b) <= 2 * k * (b * N) + 2 * (r * N) + 10 * b) by lia.
  assert (HbN : 10 * b < b * N) by nia.
  split; [|split].
  - intros Hlt. apply div_half_even_between; [exact HN|].
    assert (2 * (r * N) <= (b - 1) * N) by nia.
    split; nia.
  - intros Hgt. apply div_half_even_between; [exact HN|].
    assert ((b + 1) * N <= 2 * (r * N)) by nia.
    assert (2 * (r * N) < 2 * (b * N)) by nia.
    split; nia.
  - intros Heq. apply div_half_even_within; [exact HN|].
    assert (2 * (r * N) = b * N) by nia.
    split; nia.
Qed.

End Rounding.

(* ===================================================================== *)
(** * Statistics *)
(* ===================================================================== *)

Section Statistics.

Import Reference.

Lemma sum_ages_spec (data : list person) : sum_ages data = sum_of_ages data.
Proof.
  unfold sum_ages, sum_of_ages.
  assert (G : forall acc, fold_left (fun acc p => acc + age p) data acc
                          = acc + fold_right Z.add 0 (map age data)).
  { induction data as [|p data IH]; intros acc; simpl; [lia|].
    rewrite IH. lia. }
  rewrite G. lia.
Qed.

Lemma sum_of_ages_lower (data : list person) :
  Forall (fun p => 1 <= age p) data ->
  Z.of_nat (length data) <= sum_of_ages data.
Proof.
  unfold sum_of_ages. induction 1 as [|p data Hp _ IH]; simpl length; simpl fold_right; lia.
Qed.

(** The size of the set of the states is the number of distinct states. *)
Lemma distinct_spec (l : list str) :
  Z.of_nat (size (list_to_set l : gset str)) = distinct l.
Proof.
  unfold distinct. f_equal.
  rewrite <- (size_list_to_set (C := gset str) (remove_dups l))
    by apply NoDup_remove_dups.
  f_equal. apply set_eq. intros x.
  rewrite !elem_of_list_to_set, elem_of_remove_dups. reflexivity.
Qed.

Lemma round_div_below (mode : rounding) (p q : Z) :
  0 < q -> 2 * (p mod q) < q -> round_div mode p q = p / q.
Proof.
  intros Hq Hlt.
  pose proof (Z.div_mod p q ltac:(lia)) as E.
  pose proof (Z.mod_pos_bound p q Hq) as Hr.
  destruct mode; simpl.
  - unfold div_half_even.
    destruct (Z.compare_spec (2 * (p mod q)) q); lia || reflexivity.
  - symmetry. apply (Z.div_unique _ _ _ (2 * (p mod q) + q)); lia.
Qed.

Lemma round_div_above (mode : rounding) (p q : Z) :
  0 < q -> q < 2 * (p mod q) -> round_div mode p q = p / q + 1.
Proof.
  intros Hq Hlt.
  pose proof (Z.div_mod p q ltac:(lia)) as E.
  pose proof (Z.mod_pos_bound p q Hq) as Hr.
  destruct mode; simpl.
  - unfold div_half_even.
    destruct (Z.compare_spec (2 * (p mod q)) q); lia || reflexivity.
  - symmetry. apply (Z.div_unique _ _ _ (2 * (p mod q) - q)); lia.
Qed.

(** The result of [get_statistics] on a non-empty store of positive ages
    whose sum is below [2^53 / 20]: the count, the number of distinct
    states, and as average the [float] of a number [t] of tenths that is
    the rounding of the exact mean, an exact half going either way. *)
Lemma get_statistics_nonempty (s : session) :
  people_data s <> [] ->
  Forall (fun p => 1 <= age p) (people_data s) ->
  20 * sum_of_ages (people_data s) < 2 ^ 53 ->
  let count := Z.of_nat (length (people_data s)) in
  let k := (10 * sum_of_ages (people_data s)) / count in
  let r := (10 * sum_of_ages (people_data s)) mod count in
  exists t,
    get_statistics s
    = Some (count, PyFloat (strtod false t 1),
            distinct (map state (people_data s)))
    /\ 0 < t < 2 ^ 53
    /\ (2 * r < count -> t = k) /\ (count < 2 * r -> t = k + 1)
    /\ (2 * r = count -> t = k \/ t = k + 1).
Proof.
  intros Hne Hages Hsum. cbv zeta.
  pose proof (sum_of_ages_lower _ Hages) as Hlow.
  unfold get_statistics.
  destruct (people_data s) as [|p data] eqn:D; [contradiction|].
  rewrite sum_ages_spec, distinct_spec.
  set (a := sum_of_ages (p :: data)) in *.
  set (b := Z.of_nat (length (p :: data))) in *.
  assert (Hb : 0 < b) by (unfold b; simpl length; lia).
  destruct (true_div_spec a b) as (M & E & -> & HE & HM & Herr); [lia|lia|].
  cbn [mbind option_bind]. unfold float_round.
  replace (0 <=? E) with false by (symmetry; apply Z.leb_gt; exact HE).
  change (10 ^ Z.of_nat 1) with 10.
  assert (HN : 0 < 2 ^ (- E)) by (apply Z.pow_pos_nonneg; lia).
  pose proof (tenths_of_quotient a b (Zpos M) (2 ^ (- E))
                ltac:(lia) Hb Hsum HN ltac:(lia) Herr) as T.
  cbv zeta in T. destruct T as (T1 & T2 & T3).
  exists (div_half_even (Zpos M * 10) (2 ^ (- E))).
  split; [reflexivity|].
  assert (Hk : 10 <= (10 * a) / b) by (apply Z.div_le_lower_bound; lia).
  assert (Hk' : (10 * a) / b <= 10 * a) by (apply Z.div_le_upper_bound; nia).
  pose proof (Z.mod_pos_bound (10 * a) b Hb) as Hr.
  split; [|tauto].
  destruct (Z.lt_trichotomy (2 * ((10 * a) mod b)) b) as [L|[L|L]].
  - rewrite (T1 L). lia.
  - destruct (T3 L) as [-> | ->]; lia.
  - rewrite (T2 L). lia.
Qed.

End Statistics.

Lemma after_submits_reachable (forms : list form) : reachable (after_submits forms).
Proof.
  unfold after_submits.
  assert (G : forall s, reachable s ->
                reachable (fold_left (fun s i => main (Submit i) s) forms s)).
  { induction forms as [|i forms IH]; intros s Hs; simpl; [exact Hs|].
    apply IH. exact (reach_step (Submit i) s Hs). }
  apply G. constructor.
Qed.

Lemma agrees_float (s : session) (n t d : Z) :
  get_statistics s = Some (n, PyFloat (strtod false t 1), d) ->
  0 < t < 2 ^ 53 ->
  agrees (get_statistics s) (n, t, d).
Proof.
  intros -> Ht. unfold agrees, eq_tenths. cbn [fst snd].
  replace (t <? 0) with false by (symmetry; apply Z.ltb_ge; lia).
  rewrite Z.abs_eq by lia.
  destruct (strtod_finite t Ht) as (M & E & ->).
  rewrite SFeqb_finite_refl. tauto.
Qed.

(** C1, as the code has it.  On the empty store [get_statistics] returns
    (0, 0, 0).  On a store of positive ages whose sum is below 2^53 / 20
    it returns the count, the number of distinct states (exact string
    equality) and the mean age rounded to one decimal; the mean is first
    rounded to binary64, so the result is the tenth nearest to the exact
    mean, under either rounding rule, unless the exact mean lies exactly
    halfway between two tenths: then it is one of these two tenths, not
    always the one the rule picks.  Ages 30 and 40 give 35.0, and states
    NY, NY, CA give 2 distinct states. *)
Theorem get_statistics_vs_reference (mode : Reference.rounding) (s : session) :
  Forall (fun p => 1 <= age p) (people_data s) ->
  20 * Reference.sum_of_ages (people_data s) < 2 ^ 53 ->
  let store := people_data s in
  let count := Z.of_nat (length store) in
  let tenths := 10 * Reference.sum_of_ages store in
  (~ Reference.halfway tenths count ->
   agrees (get_statistics s) (Reference.computeStatistics mode store)) /\
  (Reference.halfway tenths count ->
   exists t, (t = tenths / count \/ t = tenths / count + 1) /\
     agrees (get_statistics s)
            (count, t, Reference.distinct (map state store))) /\
  get_statistics (session_of []) = Some (0, PyInt 0, 0) /\
  agrees (get_statistics
            (after_submits [resident_form 30 "NY"; resident_form 40 "NY"]))
         (2, 350, 1) /\
  agrees (get_statistics
            (after_submits [resident_form 30 "NY"; resident_form 40 "NY";
                            resident_form 50 "CA"]))
         (3, 400, 2).
Proof.
  intros Hages Hsum. cbv zeta.
  split; [|split; [|split; [reflexivity|split; vm_compute; tauto]]].
  - intros Hnot. destruct (people_data s) as [|p data] eqn:D.
    + unfold get_statistics. rewrite D. simpl. tauto.
    + rewrite <- D in *.
      assert (Hne : people_data s <> []) by (rewrite D; discriminate).
      destruct (get_statistics_nonempty s Hne Hages Hsum)
        as (t & E & Ht & T1 & T2 & T3).
      set (count := Z.of_nat (length (people_data s))) in *.
      assert (Hc : 0 < count) by (unfold count; rewrite D; simpl length; lia).
      assert (R : Reference.computeStatistics mode (people_data s)
                  = (count,
                     Reference.round_div mode
                       (10 * Reference.sum_of_ages (people_data s)) count,
                     Reference.distinct (map state (people_data s)))).
      { unfold Reference.computeStatistics, count. rewrite D. reflexivity. }
      rewrite R.
      destruct (Z.lt_trichotomy
                  (2 * ((10 * Reference.sum_of_ages (people_data s)) mod count))
                  count) as [L|[L|L]].
      * rewrite (round_div_below mode _ _ Hc L), <- (T1 L).
        now apply agrees_float.
      * exfalso. apply Hnot. split; assumption.
      * rewrite (round_div_above mode _ _ Hc L), <- (T2 L).
        now apply agrees_float.
  - intros [Hc Hhalf].
    assert (Hne : people_data s <> []).
    { intros E. rewrite E in Hc. simpl in Hc. lia. }
    destruct (get_statistics_nonempty s Hne Hages Hsum)
      as (t & E & Ht & _ & _ & T3).
    exists t. split; [exact (T3 Hhalf)|]. now apply agrees_float.
Qed.

Lemma get_statistics_vs_reference_witness :
  Forall (fun p => 1 <= age p)
    (people_data (after_submits [resident_form 30 "NY"; resident_form 41 "CA"])) /\
  20 * Reference.sum_of_ages
         (people_data (after_submits [resident_form 30 "NY"; resident_form 41 "CA"]))
    < 2 ^ 53 /\
  ~ Reference.halfway 710 2 /\
  agrees (get_statistics
            (after_submits [resident_form 30 "NY"; resident_form 41 "CA"]))
         (2, 355, 2).
Proof.
  assert (H1 : Forall (fun p => 1 <= age p)
    (people_data (after_submits [resident_form 30 "NY"; resident_form 41 "CA"]))).
  { vm_compute. repeat (constructor; [discriminate|]). constructor. }
  assert (H2 : 20 * Reference.sum_of_ages
         (people_data (after_submits [resident_form 30 "NY"; resident_form 41 "CA"]))
    < 2 ^ 53).
  { vm_compute. reflexivity. }
  assert (H3 : ~ Reference.halfway 710 2).
  { intros [_ H]. vm_compute in H. discriminate H. }
  split; [exact H1|]. split; [exact H2|]. split; [exact H3|].
  exact (proj1 (get_statistics_vs_reference Reference.HalfEven _ H1 H2) H3).
Defined.

(** C1, as stated, fails.  After twenty valid submissions whose ages sum
    to 23 the exact mean is 1.15, which both rounding rules take to 1.2;
    the binary64 quotient 23 / 20 is below 1.15 and [get_statistics]
    returns 1.1. *)
Lemma average_of_twenty_differs :
  store_invariant (after_submits twenty) /\
  Reference.sum_of_ages (people_data (after_submits twenty)) = 23 /\
  get_statistics (after_submits twenty)
  = Some (20, PyFloat (strtod false 11 1), 1) /\
  Reference.computeStatistics Reference.HalfEven
    (people_data (after_submits twenty)) = (20, 12, 1) /\
  Reference.computeStatistics Reference.HalfUp
    (people_data (after_submits twenty)) = (20, 12, 1) /\
  ~ agrees (get_statistics (after_submits twenty))
      (Reference.computeStatistics Reference.HalfEven
         (people_data (after_submits twenty))) /\
  ~ agrees (get_statistics (after_submits twenty))
      (Reference.computeStatistics Reference.HalfUp
         (people_data (after_submits twenty))).
Proof.
  split.
  { apply (reachable_all valid_record make_person_valid).
    apply after_submits_reachable. }
  split; [reflexivity|].
  split; [vm_compute; reflexivity|].
  split; [vm_compute; reflexivity|].
  split; [vm_compute; reflexivity|].
  split; vm_compute; intros (_ & H & _); discriminate H.
Qed.

(* ===================================================================== *)
(** * How the session evolves *)
(* ===================================================================== *)

Section Evolution.

Lemma validate_input_cases (i : form) :
  (valid_form i /\ validate_input i = Valid)
  \/ (~ valid_form i /\ validate_input i = MissingField)
  \/ (~ valid_form i /\ validate_input i = InvalidAge).
Proof.
  destruct (any_blank_dec i) as [Hb|Hb].
  - right. left. split; [intros [H _]; contradiction|].
    now apply validate_input_missing.
  - assert (Ha : age_in_range (f_age i) \/ ~ age_in_range (f_age i))
      by (unfold age_in_range; lia).
    destruct Ha as [Ha|Ha].
    + left. split; [now split|]. apply validate_input_valid. now split.
    + right. right. split; [intros [_ H]; contradiction|].
      now apply validate_input_age.
Qed.

Lemma accepted_iff (i : form) : accepted i = true <-> valid_form i.
Proof.
  unfold accepted.
  destruct (validate_input_cases i) as [[H E]|[[H E]|[H E]]]; rewrite E; simpl;
    split; intros; try assumption; try reflexivity; try discriminate;
    contradiction.
Qed.

Lemma fold_submits (forms : list form) (s : session) :
  people_data (fold_left (fun s i => main (Submit i) s) forms s)
  = people_data s ++ map make_person (List.filter accepted forms).
Proof.
  revert s. induction forms as [|i forms IH]; intros s; simpl.
  - now rewrite app_nil_r.
  - rewrite IH. destruct (accepted i) eqn:A.
    + apply accepted_iff, validate_input_valid in A.
      rewrite (on_submit_valid i s A). simpl. now rewrite <- app_assoc.
    + destruct (on_submit_cases i s) as [[Hv _]|E].
      * apply accepted_iff in Hv. congruence.
      * now rewrite E.
Qed.

End Evolution.

(** X1. One run of [main] changes the list of records in one of three
    ways only: it leaves it as it is, it appends the record made from a
    valid submitted form, or, on a click on the clear button while the
    confirmation is armed, it empties it.  Stored records are never
    changed, reordered or removed one by one. *)
Theorem store_changes_by_append_or_clear (ev : event) (s : session) :
  people_data (main ev s) = people_data s
  \/ (exists i, ev = Submit i /\ valid_form i
                /\ people_data (main ev s) = people_data s ++ [make_person i])
  \/ (ev = ClickClear /\ flow s = ArmedForClear /\ people_data s <> []
      /\ people_data (main ev s) = []).
Proof.
  destruct ev as [i| |]; simpl.
  - destruct (on_submit_cases i s) as [[Hv E]|E]; [|now left].
    right. left. exists i. split; [reflexivity|]. split; assumption.
  - destruct (people_data s) as [|p data] eqn:D; [now left|].
    destruct (flow s) eqn:F.
    + left. rewrite <- D. now apply on_clear_click_idle.
    + right. right. repeat split; [discriminate|].
      now apply on_clear_click_armed.
  - now left.
Qed.

(** X2. In every reachable session an armed confirmation comes with a
    store that is not empty: the flag is armed only by a click on the clear
    button, which exists only while there are records, and while it is
    armed the store can only grow. *)
Theorem armed_implies_nonempty (s : session) :
  reachable s -> flow s = ArmedForClear -> people_data s <> [].
Proof.
  induction 1 as [|ev s Hs IH]; [discriminate|].
  destruct ev as [i| |]; simpl.
  - rewrite submit_keeps_flow. intros F. specialize (IH F).
    destruct (on_submit_cases i s) as [[_ E]|E]; rewrite E; [|exact IH].
    intros H. now apply app_eq_nil in H as [_ H].
  - destruct (people_data s) as [|p data] eqn:D.
    + intros F. now apply IH in F.
    + destruct (flow s) eqn:F.
      * destruct (on_clear_click_idle s F) as [_ E]. rewrite E, D. discriminate.
      * destruct (on_clear_click_armed s F) as [F' _]. rewrite F'. discriminate.
  - exact IH.
Qed.

Lemma armed_implies_nonempty_witness :
  reachable (main ClickClear (main (Submit ada_form) fresh_session)) /\
  flow (main ClickClear (main (Submit ada_form) fresh_session)) = ArmedForClear /\
  people_data (main ClickClear (main (Submit ada_form) fresh_session)) <> [].
Proof.
  assert (R : reachable (main ClickClear (main (Submit ada_form) fresh_session)))
    by (do 2 apply reach_step; apply reach_fresh).
  split; [exact R|]. split; [reflexivity|].
  exact (armed_implies_nonempty _ R eq_refl).
Defined.

(** X3. The store after a series of submissions to a fresh session holds
    exactly the accepted ones, in the order they were submitted, each as
    the record [add_person] makes of it; rejected submissions leave no
    trace in it. *)
Theorem store_is_accepted_submissions (forms : list form) :
  people_data (after_submits forms)
  = map make_person (List.filter accepted forms)
  /\ (forall i, accepted i = true <-> valid_form i).
Proof.
  split; [|exact accepted_iff].
  unfold after_submits. now rewrite fold_submits.
Qed.

(** X4. After every submit exactly one message is shown: the success
    message naming the submitted person when the input is valid, one of
    the two error messages when it is not. *)
Theorem submit_shows_one_message (i : form) (s : session) :
  (valid_form i
   /\ messages (main (Submit i) s) = [ShowSuccess (added_message i)])
  \/ (~ valid_form i
      /\ (messages (main (Submit i) s) = [ShowError msg_missing]
          \/ messages (main (Submit i) s) = [ShowError msg_age])).
Proof.
  simpl. destruct (validate_input_cases i) as [[H E]|[[H E]|[H E]]].
  - left. split; [exact H|]. rewrite (on_submit_valid i s E). reflexivity.
  - right. split; [exact H|]. left. rewrite (on_submit_rejected i s _ E).
    reflexivity.
  - right. split; [exact H|]. right. rewrite (on_submit_rejected i s _ E).
    reflexivity.
Qed.

(** X5. Only a submit touches the error message: a click on the clear
    button and a download leave it as it is, in every session.  So a
    confirmed clear, which reports its success, still shows the error of
    an earlier rejected submit beside it. *)
Theorem clear_keeps_error_message (s : session) :
  error_message (main ClickClear s) = error_message s /\
  error_message (main ClickDownload s) = error_message s /\
  (people_data s <> [] -> flow s = ArmedForClear ->
   messages (main ClickClear s)
   = ShowSuccess (lit "All data cleared successfully!")
     :: (if truthy (error_message s) then [ShowError (error_message s)]
         else [])).
Proof.
  split; [|split; [reflexivity|]].
  - simpl. destruct (people_data s) as [|p data]; [reflexivity|].
    unfold on_clear_click.
    destruct (default false (confirm_clear s)); reflexivity.
  - intros Hne F. simpl.
    destruct (people_data s) as [|p data]; [contradiction|].
    unfold on_clear_click, flow in *.
    destruct (default false (confirm_clear s)); [|discriminate].
    reflexivity.
Qed.

Lemma clear_keeps_error_message_witness :
  people_data (main (Submit old_form) (main ClickClear (session_of [ada]))) <> [] /\
  flow (main (Submit old_form) (main ClickClear (session_of [ada])))
  = ArmedForClear /\
  error_message
    (main ClickClear
       (main (Submit old_form) (main ClickClear (session_of [ada]))))
  = msg_age /\
  messages
    (main ClickClear
       (main (Submit old_form) (main ClickClear (session_of [ada]))))
  = [ShowSuccess (lit "All data cleared successfully!"); ShowError msg_age].
Proof.
  assert (H1 : people_data
                 (main (Submit old_form) (main ClickClear (session_of [ada])))
               <> []) by discriminate.
  assert (H2 : flow (main (Submit old_form) (main ClickClear (session_of [ada])))
               = ArmedForClear) by reflexivity.
  split; [exact H1|]. split; [exact H2|].
  split.
  - exact (proj1 (clear_keeps_error_message
                    (main (Submit old_form)
                          (main ClickClear (session_of [ada]))))).
  - exact (proj2 (proj2 (clear_keeps_error_message _)) H1 H2).
Defined.

(* ===================================================================== *)
(** * Stored records, cleared stores and exports *)
(* ===================================================================== *)

(** X6. Every record of a reachable store, entered again exactly as it is
    stored, passes [validate_input] and is stored by [add_person] as the
    identical record. *)
Theorem stored_record_round_trip (s : session) (p : person) :
  reachable s -> In p (people_data s) ->
  validate_input (form_of p) = Valid /\ make_person (form_of p) = p.
Proof.
  intros Hs Hin. apply list_elem_of_In in Hin.
  pose proof (reachable_all valid_record make_person_valid s Hs) as V.
  pose proof (reachable_all trimmed_record
                (fun i _ => make_person_trimmed i) s Hs) as T.
  rewrite Forall_forall in V, T. specialize (V p Hin). specialize (T p Hin).
  destruct V as (V1 & V2 & V3 & V4 & V5 & V6).
  destruct T as (T1 & T2 & T3 & T4 & T5).
  split.
  - apply validate_input_valid. split; [|exact V6].
    unfold any_blank, form_of; simpl. tauto.
  - destruct p as [f l a j c st]. unfold make_person, form_of, int_; simpl in *.
    now rewrite !trimmed_strip_id.
Qed.

Lemma stored_record_round_trip_witness :
  reachable (after_submits [ada_form]) /\
  In ada (people_data (after_submits [ada_form])) /\
  validate_input (form_of ada) = Valid /\ make_person (form_of ada) = ada.
Proof.
  assert (R : reachable (after_submits [ada_form]))
    by (apply reach_step; apply reach_fresh).
  assert (I : In ada (people_data (after_submits [ada_form])))
    by (left; reflexivity).
  split; [exact R|]. split; [exact I|].
  exact (stored_record_round_trip _ ada R I).
Defined.

(** X7. Two clicks on the clear button in a row, starting with the
    confirmation idle and a store that is not empty, leave the session as
    a session without data: no records, the confirmation idle again, the
    statistics (0, 0, 0), no export buffer from either exporter, and the
    list showing only its "no people" message. *)
Theorem two_clicks_reset (s : session) :
  people_data s <> [] -> flow s = Idle ->
  let s' := main ClickClear (main ClickClear s) in
  people_data s' = [] /\ flow s' = Idle /\
  get_statistics s' = Some (0, PyInt 0, 0) /\
  Excel.create_excel_file s' = Returned None /\
  Word.create_word_file s' = Returned None /\
  display_people_list s' = display_people_list fresh_session /\
  success_message s' = lit "All data cleared successfully!".
Proof.
  intros Hne F. cbv zeta.
  assert (E1 : main ClickClear s = on_clear_click s).
  { simpl. destruct (people_data s); [contradiction|reflexivity]. }
  destruct (on_clear_click_idle s F) as [F1 D1].
  assert (E2 : main ClickClear (main ClickClear s)
               = on_clear_click (on_clear_click s)).
  { rewrite E1. simpl. rewrite D1.
    destruct (people_data s); [contradiction|reflexivity]. }
  rewrite E2. destruct (on_clear_click_armed _ F1) as [F2 D2].
  unfold get_statistics, Excel.create_excel_file, Word.create_word_file,
    display_people_list.
  rewrite D2. repeat split; try assumption.
  unfold on_clear_click at 1. unfold flow in F1.
  destruct (default false (confirm_clear (on_clear_click s)));
    [reflexivity|discriminate].
Qed.

Lemma two_clicks_reset_witness :
  people_data (after_submits [ada_form; ada_form]) <> [] /\
  flow (after_submits [ada_form; ada_form]) = Idle /\
  get_statistics
    (main ClickClear (main ClickClear (after_submits [ada_form; ada_form])))
  = Some (0, PyInt 0, 0).
Proof.
  assert (H1 : people_data (after_submits [ada_form; ada_form]) <> [])
    by discriminate.
  assert (H2 : flow (after_submits [ada_form; ada_form]) = Idle)
    by reflexivity.
  split; [exact H1|]. split; [exact H2|].
  exact (proj1 (proj2 (proj2 (two_clicks_reset _ H1 H2)))).
Defined.

Section ExportSteps.

Lemma store_cases (s : session) : people_data s = [] \/ people_data s <> [].
Proof. destruct (people_data s); [now left|now right]. Qed.

Lemma word_of_empty (s : session) :
  people_data s = [] -> Word.create_word_file s = Returned None.
Proof. intros D. unfold Word.create_word_file. now rewrite D. Qed.

Lemma excel_of_empty (s : session) :
  people_data s = [] -> Excel.create_excel_file s = Returned None.
Proof. intros D. unfold Excel.create_excel_file. now rewrite D. Qed.

(** When [create_excel_file] returns on a store that is not empty, it
    returns the workbook of the store, and every cell was accepted. *)
Lemma excel_returned (s : session) (o : option Excel.workbook) :
  people_data s <> [] -> Excel.create_excel_file s = Returned o ->
  o = Some (workbook_of (people_data s)) /\
  (Z.of_nat (length (people_data s)) >? Excel.max_rows) = false /\
  forallb legal_record (people_data s) = true /\
  forallb (fun p => clean_record (cut_record p)) (people_data s) = true.
Proof.
  intros Hne. rewrite (excel_outcome s Hne).
  destruct (_ >? _); [discriminate|].
  destruct (forallb legal_record _); [|discriminate].
  destruct (forallb _ _); [|discriminate].
  intros E.
  assert (W := f_equal (fun r => match r with Returned x => x | Raised => o end) E).
  cbv beta iota in W. now rewrite <- W.
Qed.



Lemma submit_store (i : form) (s : session) :
  valid_form i ->
  people_data (main (Submit i) s) = people_data s ++ [make_person i].
Proof.
  intros Hv. simpl. rewrite (on_submit_valid i s (validate_input_valid i Hv)).
  reflexivity.
Qed.


(** The Word export after a valid submit, from the one before it. *)
Lemma word_after_submit (i : form) (s : session) :
  valid_form i ->
  Word.create_word_file (main (Submit i) s)
  = match Word.create_word_file s with
    | Raised => Raised
    | Returned before =>
        if clean_record (make_person i)
        then Returned
               (Some (default [Word.Heading (lit "People Directory") 0] before
                      ++ [Word.Paragraph (Word.sentence (make_person i));
                          Word.Paragraph []]))
        else Raised
    end.
Proof.
  intros Hv. pose proof (submit_store i s Hv) as D'.
  assert (Hne' : people_data (main (Submit i) s) <> []).
  { rewrite D'. intros H. now apply app_eq_nil in H as [_ H]. }
  rewrite (word_outcome _ Hne'), D', forallb_app, flat_map_app.
  simpl forallb. rewrite andb_true_r.
  destruct (store_cases s) as [D|Hne].
  - rewrite (word_of_empty s D), D. simpl.
    destruct (clean_record (make_person i)); reflexivity.
  - rewrite (word_outcome s Hne).
    destruct (forallb clean_record (people_data s)); [|reflexivity].
    simpl. destruct (clean_record (make_person i)); reflexivity.
Qed.

End ExportSteps.

(** X8. A valid submit extends the Word export by exactly two paragraphs
    at its end, the sentence of the new record and an empty one; what was
    exported before is still there, unchanged and in the same place, and
    on an empty store the export starts with the title.  In full: if the
    export raised before the submit it raises after it; if the export
    after the submit returns a document, the export before it returned
    too, and the document is the one before (or the title alone) followed
    by the two paragraphs; and the export after the submit does return
    this document when the one before returned and the new record holds
    only characters that XML allows. *)
Theorem word_export_grows_by_submit (i : form) (s : session) :
  valid_form i ->
  (Word.create_word_file s = Raised ->
   Word.create_word_file (main (Submit i) s) = Raised) /\
  (forall doc,
     Word.create_word_file (main (Submit i) s) = Returned (Some doc) ->
     exists before,
       Word.create_word_file s = Returned before /\
       doc = default [Word.Heading (lit "People Directory") 0] before
             ++ [Word.Paragraph (Word.sentence (make_person i));
                 Word.Paragraph []]) /\
  (forall before,
     Word.create_word_file s = Returned before ->
     clean_record (make_person i) = true ->
     Word.create_word_file (main (Submit i) s)
     = Returned
         (Some (default [Word.Heading (lit "People Directory") 0] before
                ++ [Word.Paragraph (Word.sentence (make_person i));
                    Word.Paragraph []]))).
Proof.
  intros Hv. rewrite (word_after_submit i s Hv).
  split; [|split].
  - now intros ->.
  - intros doc E. destruct (Word.create_word_file s) as [before|];
      [|discriminate E].
    exists before. split; [reflexivity|].
    destruct (clean_record (make_person i)); [|discriminate E].
    assert (W := f_equal (fun r => match r with
                                   | Returned (Some x) => x
                                   | _ => doc
                                   end) E).
    cbv beta iota in W. now rewrite <- W.
  - intros before -> ->. reflexivity.
Qed.

Lemma word_export_grows_by_submit_witness :
  valid_form ada_form /\
  Word.create_word_file (main (Submit ada_form) (session_of [ada]))
  = Returned
      (Some [Word.Heading (lit "People Directory") 0;
             Word.Paragraph (Word.sentence ada); Word.Paragraph [];
             Word.Paragraph (Word.sentence ada); Word.Paragraph []]).
Proof.
  split; [exact ada_form_valid|].
  exact (proj2 (proj2 (word_export_grows_by_submit
                         ada_form (session_of [ada]) ada_form_valid))
           (Some [Word.Heading (lit "People Directory") 0;
                  Word.Paragraph (Word.sentence ada); Word.Paragraph []])
           eq_refl eq_refl).
Defined.



(* ===================================================================== *)
(** * Column widths of the sheet *)
(* ===================================================================== *)

Section Widths.

Lemma fold_max_ge_init (col : list Excel.cell) (m0 : Z) :
  m0 <= fold_left (fun m c =>
                     let n := Z.of_nat (length (Excel.cell_text c)) in
                     if n >? m then n else m) col m0.
Proof.
  revert m0. induction col as [|c col IH]; intros m0; simpl; [lia|].
  destruct (Z.gtb_spec (Z.of_nat (length (Excel.cell_text c))) m0).
  - transitivity (Z.of_nat (length (Excel.cell_text c))); [lia|apply IH].
  - apply IH.
Qed.

Lemma fold_max_ge_elem (col : list Excel.cell) (m0 : Z) (c : Excel.cell) :
  In c col ->
  Z.of_nat (length (Excel.cell_text c))
  <= fold_left (fun m c =>
                  let n := Z.of_nat (length (Excel.cell_text c)) in
                  if n >? m then n else m) col m0.
Proof.
  revert m0. induction col as [|d col IH]; intros m0 Hin; [destruct Hin|].
  destruct Hin as [->|Hin]; simpl.
  - destruct (Z.gtb_spec (Z.of_nat (length (Excel.cell_text c))) m0).
    + apply fold_max_ge_init.
    + transitivity m0; [lia|apply fold_max_ge_init].
  - now apply IH.
Qed.

(** A column is at least two wider than each of its cells, unless it is
    capped at 50. *)
Lemma adjusted_width_fits (col : list Excel.cell) (c : Excel.cell) :
  In c col ->
  2 <= Excel.adjusted_width col <= 50
  /\ (Excel.adjusted_width col = 50
      \/ Z.of_nat (length (Excel.cell_text c)) + 2 <= Excel.adjusted_width col).
Proof.
  intros Hin. unfold Excel.adjusted_width.
  pose proof (fold_max_ge_elem col 0 c Hin) as H1.
  pose proof (fold_max_ge_init col 0) as H2.
  cbv zeta in *.
  set (m := fold_left _ col 0) in *. lia.
Qed.

Lemma column_cells_in (j : nat) (sheet : list (list Excel.cell))
      (row : list Excel.cell) (c : Excel.cell) :
  In row sheet -> row !! j = Some c -> In c (Excel.column_cells j sheet).
Proof.
  intros Hin Hj. apply list_elem_of_In. unfold Excel.column_cells.
  apply list_elem_of_omap. exists row. split; [now apply list_elem_of_In|exact Hj].
Qed.

Lemma lookup_map_seq {A : Type} (f : nat -> A) (n j : nat) :
  (j < n)%nat -> map f (seq 0 n) !! j = Some (f j).
Proof.
  intros Hj. assert (E : map f (seq 0 n) = f <$> seq 0 n) by reflexivity.
  rewrite E, list_lookup_fmap, lookup_seq_lt by exact Hj. reflexivity.
Qed.

End Widths.

(** X10. In the workbook of [create_excel_file] there is one width per
    column, six in all, each between 2 and 50; and every cell of the sheet,
    header included, fits its column: the column is at least two wider
    than the text of the cell, unless the width is capped at 50. *)
Theorem column_widths_fit (s : session) (wb : Excel.workbook) :
  Excel.create_excel_file s = Returned (Some wb) ->
  length (Excel.column_widths wb) = 6%nat /\
  forall (row : list Excel.cell) (j : nat) (c : Excel.cell),
    In row (Excel.sheet_rows wb) -> row !! j = Some c ->
    exists w, Excel.column_widths wb !! j = Some w
              /\ 2 <= w <= 50
              /\ (w = 50 \/ Z.of_nat (length (Excel.cell_text c)) + 2 <= w).
Proof.
  intros E.
  assert (Hne : people_data s <> []).
  { intros D. rewrite (excel_of_empty s D) in E. discriminate E. }
  destruct (excel_returned s _ Hne E) as (W & _).
  assert (Wb := f_equal (fun o => match o with Some x => x | None => wb end) W).
  cbv beta iota in Wb. rewrite Wb. clear E W Wb.
  unfold workbook_of. cbv zeta.
  set (sheet := header_row :: map (fun p => sheet_row (cut_record p))
                                  (people_data s)).
  unfold Excel.column_widths, Excel.sheet_rows. cbv beta iota.
  split; [reflexivity|].
  intros row j c Hrow Hj.
  assert (Hlen : length row = 6%nat).
  { unfold sheet in Hrow.
    destruct Hrow as [<-|Hrow]; [reflexivity|].
    apply in_map_iff in Hrow as (q & <- & _). reflexivity. }
  assert (Hj6 : (j < 6)%nat).
  { rewrite <- Hlen. apply lookup_lt_is_Some. now exists c. }
  exists (Excel.adjusted_width (Excel.column_cells j sheet)).
  split.
  - apply (lookup_map_seq (fun j => Excel.adjusted_width (Excel.column_cells j sheet))).
    exact Hj6.
  - apply adjusted_width_fits. now apply (column_cells_in j _ row).
Qed.

Lemma column_widths_fit_witness :
  exists wb,
    Excel.create_excel_file (after_submits [ada_form]) = Returned (Some wb) /\
    length (Excel.column_widths wb) = 6%nat /\
    Excel.column_widths wb = [12; 11; 5; 15; 8; 9].
Proof.
  assert (E : Excel.create_excel_file (after_submits [ada_form])
              = Returned (Some (workbook_of [ada])))
    by (vm_compute; reflexivity).
  exists (workbook_of [ada]). split; [exact E|].
  split; [exact (proj1 (column_widths_fit (after_submits [ada_form]) _ E))|].
  vm_compute. reflexivity.
Defined.

(* ===================================================================== *)
(** * More on the statistics *)
(* ===================================================================== *)

Section StatisticsMore.

Import Reference.

Lemma sum_of_ages_perm (l1 l2 : list person) :
  l1 ≡ₚ l2 -> sum_of_ages l1 = sum_of_ages l2.
Proof.
  unfold sum_of_ages. induction 1; simpl; lia.
Qed.

Lemma sum_of_ages_bounds (data : list person) (lo hi : Z) :
  Forall (fun p => lo <= age p <= hi) data ->
  lo * Z.of_nat (length data) <= sum_of_ages data <= hi * Z.of_nat (length data).
Proof.
  unfold sum_of_ages.
  induction 1 as [|p data Hp _ IH]; simpl length; simpl fold_right; lia.
Qed.

Lemma distinct_bounds (l : list str) :
  0 <= distinct l <= Z.of_nat (length l) /\ (l <> [] -> 1 <= distinct l).
Proof.
  unfold distinct. split.
  - split; [lia|]. apply Nat2Z.inj_le.
    induction l as [|x l IH]; simpl; [lia|].
    destruct (decide_rel elem_of x l); simpl; lia.
  - intros Hne. destruct (remove_dups l) as [|y r] eqn:E; [|simpl; lia].
    destruct l as [|x l]; [contradiction|].
    assert (H : x ∈ remove_dups (x :: l))
      by (apply elem_of_remove_dups; left).
    rewrite E in H. inversion H.
Qed.

End StatisticsMore.

(** X11. The statistics do not depend on the order of the records: two
    stores holding the same records in any order give the same count, the
    same average and the same number of distinct states. *)
Theorem get_statistics_permutation (s1 s2 : session) :
  people_data s1 ≡ₚ people_data s2 -> get_statistics s1 = get_statistics s2.
Proof.
  intros HP. unfold get_statistics.
  destruct (people_data s1) as [|p1 d1] eqn:D1.
  - apply Permutation_nil_l in HP. now rewrite <- HP.
  - destruct (people_data s2) as [|p2 d2] eqn:D2.
    + now apply Permutation_nil_r in HP.
    + rewrite !sum_ages_spec, (sum_of_ages_perm _ _ HP).
      rewrite (Permutation_length HP).
      assert (E : (list_to_set (map state (p1 :: d1)) : gset str)
                  = list_to_set (map state (p2 :: d2))).
      { apply list_to_set_perm_L. change (map state ?l) with (state <$> l).
        now apply fmap_Permutation. }
      now rewrite E.
Qed.

Lemma get_statistics_permutation_witness :
  people_data (after_submits [resident_form 30 "NY"; resident_form 41 "CA"])
  ≡ₚ people_data (after_submits [resident_form 41 "CA"; resident_form 30 "NY"])
  /\ get_statistics (after_submits [resident_form 30 "NY"; resident_form 41 "CA"])
     = get_statistics (after_submits [resident_form 41 "CA"; resident_form 30 "NY"]).
Proof.
  assert (H : people_data (after_submits [resident_form 30 "NY"; resident_form 41 "CA"])
              ≡ₚ people_data (after_submits [resident_form 41 "CA"; resident_form 30 "NY"]))
    by apply Permutation_swap.
  split; [exact H|]. exact (get_statistics_permutation _ _ H).
Defined.

(** The average stays within the bounds of the ages. *)
Lemma average_bounds (s : session) (lo hi : Z) :
  people_data s <> [] -> 1 <= lo ->
  Forall (fun p => lo <= age p <= hi) (people_data s) ->
  20 * Reference.sum_of_ages (people_data s) < 2 ^ 53 ->
  exists t,
    get_statistics s
    = Some (Z.of_nat (length (people_data s)), PyFloat (strtod false t 1),
            Reference.distinct (map state (people_data s)))
    /\ 10 * lo <= t <= 10 * hi.
Proof.
  intros Hne Hlo Hages Hsum.
  assert (Hpos : Forall (fun p => 1 <= age p) (people_data s)).
  { eapply Forall_impl; [exact Hages|]. simpl. intros p Hp. lia. }
  destruct (get_statistics_nonempty s Hne Hpos Hsum)
    as (t & E & Ht & T1 & T2 & T3).
  exists t. split; [exact E|].
  pose proof (sum_of_ages_bounds _ lo hi Hages) as [Bl Bh].
  set (a := Reference.sum_of_ages (people_data s)) in *.
  set (b := Z.of_nat (length (people_data s))) in *.
  assert (Hb : 0 < b).
  { unfold b. destruct (people_data s); [contradiction|simpl length; lia]. }
  pose proof (Z.div_mod (10 * a) b ltac:(lia)) as Ediv.
  pose proof (Z.mod_pos_bound (10 * a) b Hb) as Hr.
  set (k := (10 * a) / b) in *. set (r := (10 * a) mod b) in *.
  assert (Hk1 : 10 * lo <= k) by (apply Z.div_le_lower_bound; lia).
  assert (Hk2 : k <= 10 * hi) by (apply Z.div_le_upper_bound; lia).
  assert (Hk3 : 0 < r -> k + 1 <= 10 * hi) by nia.
  destruct (Z.lt_trichotomy (2 * r) b) as [L|[L|L]].
  - rewrite (T1 L). lia.
  - destruct (T3 L) as [-> | ->]; lia.
  - rewrite (T2 L). lia.
Qed.

(** X12. On a store that is not empty, with every age between [lo] and
    [hi] (and at least 1) and the sum of the ages below 2^53 / 20,
    [get_statistics] returns a result, and its average is a number of
    tenths between [lo] and [hi]: the rounding never takes the average out
    of the range of the ages.  When all the ages are equal the average is
    that age exactly. *)
Theorem average_within_age_range (s : session) (lo hi : Z) :
  people_data s <> [] -> 1 <= lo ->
  Forall (fun p => lo <= age p <= hi) (people_data s) ->
  20 * Reference.sum_of_ages (people_data s) < 2 ^ 53 ->
  exists t,
    get_statistics s
    = Some (Z.of_nat (length (people_data s)), PyFloat (strtod false t 1),
            Reference.distinct (map state (people_data s)))
    /\ 10 * lo <= t <= 10 * hi.
Proof. apply average_bounds. Qed.

Lemma average_within_age_range_witness :
  people_data (after_submits twenty) <> [] /\
  Forall (fun p => 1 <= age p <= 4) (people_data (after_submits twenty)) /\
  20 * Reference.sum_of_ages (people_data (after_submits twenty)) < 2 ^ 53 /\
  exists t,
    get_statistics (after_submits twenty)
    = Some (20, PyFloat (strtod false t 1), 1)
    /\ 10 <= t <= 40.
Proof.
  assert (H1 : people_data (after_submits twenty) <> []) by discriminate.
  assert (H2 : Forall (fun p => 1 <= age p <= 4)
                 (people_data (after_submits twenty))).
  { vm_compute. repeat (constructor; [split; discriminate|]). constructor. }
  assert (H3 : 20 * Reference.sum_of_ages (people_data (after_submits twenty))
               < 2 ^ 53) by (vm_compute; reflexivity).
  split; [exact H1|]. split; [exact H2|]. split; [exact H3|].
  exact (average_within_age_range (after_submits twenty) 1 4 H1 ltac:(lia) H2 H3).
Defined.

(** X13. The average age of a validated store is between 1.0 and 120.0:
    for every store that is not empty, satisfies the store invariant and
    has fewer than 2^41 records, [get_statistics] returns a result whose
    average is a number of tenths from 10 to 1200. *)
Theorem average_of_valid_store (s : session) :
  people_data s <> [] -> store_invariant s ->
  Z.of_nat (length (people_data s)) < 2 ^ 41 ->
  exists t,
    get_statistics s
    = Some (Z.of_nat (length (people_data s)), PyFloat (strtod false t 1),
            Reference.distinct (map state (people_data s)))
    /\ 10 <= t <= 1200.
Proof.
  intros Hne Hinv Hlen.
  assert (Hages : Forall (fun p => 1 <= age p <= 120) (people_data s)).
  { eapply Forall_impl; [exact Hinv|]. simpl. intros p Hp. apply Hp. }
  pose proof (sum_of_ages_bounds _ 1 120 Hages) as [_ Bh].
  apply (average_bounds s 1 120 Hne ltac:(lia) Hages).
  change (2 ^ 41) with 2199023255552 in Hlen.
  change (2 ^ 53) with 9007199254740992. lia.
Qed.

Lemma average_of_valid_store_witness :
  people_data (after_submits [ada_form]) <> [] /\
  store_invariant (after_submits [ada_form]) /\
  Z.of_nat (length (people_data (after_submits [ada_form]))) < 2 ^ 41 /\
  exists t,
    get_statistics (after_submits [ada_form])
    = Some (1, PyFloat (strtod false t 1), 1)
    /\ 10 <= t <= 1200.
Proof.
  assert (H1 : people_data (after_submits [ada_form]) <> []) by discriminate.
  assert (H2 : store_invariant (after_submits [ada_form])).
  { apply (reachable_all valid_record make_person_valid).
    apply after_submits_reachable. }
  assert (H3 : Z.of_nat (length (people_data (after_submits [ada_form]))) < 2 ^ 41)
    by (vm_compute; reflexivity).
  split; [exact H1|]. split; [exact H2|]. split; [exact H3|].
  exact (average_of_valid_store (after_submits [ada_form]) H1 H2 H3).
Defined.

(** X14. Whenever [get_statistics] returns a result, its count is the
    number of records and its number of distinct states is at most the
    count, and at least 1 unless the store is empty; the three numbers are
    all zero exactly on the empty store. *)
Theorem statistics_counts_bounds (s : session) (n d : Z) (avg : number) :
  get_statistics s = Some (n, avg, d) ->
  n = Z.of_nat (length (people_data s)) /\
  0 <= d <= n /\
  (people_data s <> [] -> 1 <= d) /\
  (n = 0 <-> people_data s = []) /\ (d = 0 <-> people_data s = []).
Proof.
  unfold get_statistics.
  destruct (people_data s) as [|p data] eqn:D.
  - intros E. injection E as <- <- <-. simpl. repeat split; try lia; congruence.
  - rewrite distinct_spec.
    pose proof (distinct_bounds (map state (p :: data))) as [B1 B2].
    rewrite length_map in B1.
    assert (B3 : 1 <= Reference.distinct (map state (p :: data)))
      by (apply B2; discriminate).
    assert (B4 : 1 <= Z.of_nat (length (p :: data))) by (simpl length; lia).
    set (dd := Reference.distinct (map state (p :: data))) in *.
    set (nn := Z.of_nat (length (p :: data))) in *.
    destruct (true_div _ _); [|discriminate]. cbn [mbind option_bind].
    intros E. injection E as <- _ <-.
    split; [reflexivity|]. split; [lia|]. split; [intros _; exact B3|].
    split; split; intros H; try discriminate H; lia.
Qed.

Lemma statistics_counts_bounds_witness :
  get_statistics (after_submits [resident_form 30 "NY"; resident_form 40 "NY"])
  = Some (2, PyFloat (strtod false 350 1), 1) /\ 0 <= 1 <= 2.
Proof.
  assert (H : get_statistics
                (after_submits [resident_form 30 "NY"; resident_form 40 "NY"])
              = Some (2, PyFloat (strtod false 350 1), 1))
    by (vm_compute; reflexivity).
  split; [exact H|].
  exact (proj1 (proj2 (statistics_counts_bounds _ _ _ _ H))).
Defined.

(* ===================================================================== *)
(** * Initialisation of the session state *)
(* ===================================================================== *)

Section InitLemmas.

Import SessionInit.

Lemma lookup_setdefault (k j : string) (v : stored) (st : gmap string stored) :
  setdefault k v st !! j
  = match st !! j with
    | Some x => Some x
    | None => if decide (k = j) then Some v else None
    end.
Proof.
  unfold setdefault. destruct (st !! k) eqn:K.
  - destruct (st !! j) eqn:J; [reflexivity|].
    destruct (decide (k = j)) as [->|]; [congruence|reflexivity].
  - destruct (decide (k = j)) as [->|Hne].
    + rewrite lookup_insert_eq, K. reflexivity.
    + rewrite lookup_insert_ne by exact Hne. now destruct (st !! j).
Qed.

Lemma setdefault_present (k : string) (v : stored) (st : gmap string stored) :
  is_Some (st !! k) -> setdefault k v st = st.
Proof. intros [x H]. unfold setdefault. now rewrite H. Qed.

Lemma lookup_init (j : string) (st : gmap string stored) :
  init st !! j
  = match st !! j with
    | Some x => Some x
    | None =>
        if decide (j = "people_data"%string) then Some (SList [])
        else if decide (j = "success_message"%string) then Some (SStr [])
        else if decide (j = "error_message"%string) then Some (SStr [])
        else None
    end.
Proof.
  unfold init. rewrite !lookup_setdefault.
  destruct (st !! j); [reflexivity|].
  repeat (case_decide; subst; try discriminate; try reflexivity);
    try congruence.
Qed.

End InitLemmas.

(** X15. [__init__] only fills in what is missing.  A key that is already
    in the session state keeps its value, so the list of records survives
    every re-run of the script; the three keys it is responsible for are
    present afterwards; running it again changes nothing; it leaves every
    other key, [confirm_clear] included, as it is; and on the empty state
    of a new session it yields the fresh session. *)
Theorem init_fills_only_missing_keys (st : gmap string SessionInit.stored) :
  (forall k v, st !! k = Some v -> SessionInit.init st !! k = Some v) /\
  (is_Some (SessionInit.init st !! "people_data")
   /\ is_Some (SessionInit.init st !! "success_message")
   /\ is_Some (SessionInit.init st !! "error_message")) /\
  SessionInit.init (SessionInit.init st) = SessionInit.init st /\
  SessionInit.init st !! "confirm_clear" = st !! "confirm_clear" /\
  (forall s, SessionInit.load st = Some s ->
             SessionInit.init st = st /\ SessionInit.load (SessionInit.init st) = Some s) /\
  SessionInit.load (SessionInit.init ∅) = Some fresh_session.
Proof.
  split; [|split; [|split; [|split; [|split]]]].
  - intros k v H. rewrite lookup_init, H. reflexivity.
  - rewrite !lookup_init.
    repeat split; destruct (st !! _); simpl; eauto.
  - apply map_eq. intros j. rewrite (lookup_init j (SessionInit.init st)).
    destruct (SessionInit.init st !! j) eqn:E; [reflexivity|].
    rewrite lookup_init in E. destruct (st !! j); [discriminate|].
    repeat (case_decide; try discriminate). reflexivity.
  - rewrite lookup_init. now destruct (st !! "confirm_clear").
  - intros s L.
    assert (E : SessionInit.init st = st).
    { unfold SessionInit.load in L.
      destruct (st !! "people_data") as [[]|] eqn:K1; try discriminate.
      destruct (st !! "success_message") as [[]|] eqn:K2; try discriminate.
      destruct (st !! "error_message") as [[]|] eqn:K3; try discriminate.
      unfold SessionInit.init.
      rewrite (setdefault_present "people_data") by (rewrite K1; eauto).
      rewrite (setdefault_present "success_message") by (rewrite K2; eauto).
      now rewrite (setdefault_present "error_message") by (rewrite K3; eauto). }
    now rewrite E.
  - reflexivity.
Qed.

(* ===================================================================== *)
(** * The data overview of the sidebar *)
(* ===================================================================== *)

Section SidebarLemmas.

Import Sidebar.

Context {A : Type} `{EqDecision A}.

Lemma in_unique (l : list A) (x : A) : In x (unique l) <-> In x l.
Proof.
  induction l as [|a l IH]; simpl; [tauto|].
  rewrite filter_In, IH. split.
  - intros [->|[H1 _]]; tauto.
  - intros [->|H1]; [now left|].
    destruct (decide (x = a)) as [->|Hne]; [now left|].
    right. split; [exact H1|]. now rewrite bool_decide_eq_false_2.
Qed.

Lemma NoDup_unique (l : list A) : NoDup (unique l).
Proof.
  induction l as [|a l IH]; simpl; constructor.
  - rewrite list_elem_of_In, filter_In. intros [_ H1].
    now rewrite bool_decide_eq_true_2 in H1.
  - now apply NoDup_ListNoDup, List.NoDup_filter, NoDup_ListNoDup.
Qed.

Lemma occurrences_cons (a x : A) (l : list A) :
  occurrences a (x :: l)
  = ((if bool_decide (x = a) then 1 else 0) + occurrences a l)%nat.
Proof. unfold occurrences. simpl. now destruct (bool_decide (x = a)). Qed.

Lemma occurrences_pos (a : A) (l : list A) :
  In a l <-> (0 < occurrences a l)%nat.
Proof.
  induction l as [|x l IH]; [simpl; unfold occurrences; simpl; lia|].
  rewrite occurrences_cons. simpl. case_bool_decide; subst.
  - split; [lia|now left].
  - rewrite <- IH. split; [intros [?|?]; [congruence|assumption]|now right].
Qed.

Lemma sum_indicator (U : list A) (x : A) :
  NoDup U ->
  sum_list_with (fun a => if bool_decide (x = a) then 1 else 0)%nat U
  = if bool_decide (x ∈ U) then 1%nat else 0%nat.
Proof.
  induction 1 as [|a U Hn _ IH]; [reflexivity|]. simpl. rewrite IH.
  destruct (decide (x = a)) as [->|Hne].
  - rewrite bool_decide_eq_true_2 by reflexivity.
    rewrite (bool_decide_eq_false_2 (a ∈ U)) by exact Hn.
    rewrite bool_decide_eq_true_2 by left. reflexivity.
  - rewrite (bool_decide_eq_false_2 (x = a)) by exact Hne. simpl.
    destruct (decide (x ∈ U)) as [Hx|Hx].
    + rewrite !bool_decide_eq_true_2; [reflexivity|now right|exact Hx].
    + rewrite !bool_decide_eq_false_2; [reflexivity| |exact Hx].
      intros H1. inversion H1; subst; contradiction.
Qed.

Lemma sum_occurrences (l U : list A) :
  NoDup U -> (forall x, In x l -> In x U) ->
  sum_list_with (fun a => occurrences a l) U = length l.
Proof.
  intros HU. induction l as [|x l IH]; intros Hsub.
  - unfold occurrences. simpl. clear.
    induction U as [|a U IHU]; simpl; [reflexivity|exact IHU].
  - assert (E : sum_list_with (fun a => occurrences a (x :: l)) U
                = (sum_list_with
                     (fun a => if bool_decide (x = a) then 1 else 0) U
                   + sum_list_with (fun a => occurrences a l) U)%nat).
    { clear. induction U as [|a U IHU]; simpl; [reflexivity|].
      rewrite IHU, occurrences_cons. lia. }
    rewrite E, (sum_indicator U x HU), IH.
    + rewrite bool_decide_eq_true_2; [reflexivity|].
      apply list_elem_of_In, Hsub. now left.
    + intros y Hy. apply Hsub. now right.
Qed.

End SidebarLemmas.

Section SidebarSorting.

Lemma strictly_sorted (l : list Z) :
  StronglySorted Z.le l -> NoDup l -> StronglySorted Z.lt l.
Proof.
  induction 1 as [|x l Hs IH Hall]; intros Hnd; constructor.
  - apply IH. now inversion Hnd.
  - inversion Hnd as [|? ? Hx _]; subst.
    rewrite Forall_forall in Hall |- *. intros y Hy.
    specialize (Hall y Hy).
    assert (x <> y) by (intros ->; contradiction). lia.
Qed.

Lemma fst_map_pair {A B : Type} (f : A -> B) (l : list A) :
  (map (fun x => (x, f x)) l).*1 = l.
Proof. induction l as [|x l IH]; simpl; [reflexivity|]. f_equal. exact IH. Qed.

End SidebarSorting.

(** X16. The age chart of the sidebar has one bar per distinct age, by
    strictly increasing age; the bar of an age counts the records that
    have this age, so it is never zero, and the bars add up to the number
    of records. *)
Theorem age_chart_counts_records (data : list person) :
  StronglySorted Z.lt (map fst (Sidebar.age_distribution data)) /\
  (forall a n,
     In (a, n) (Sidebar.age_distribution data)
     <-> In a (map age data) /\ n = Sidebar.occurrences a (map age data)) /\
  Forall (fun bar => (0 < snd bar)%nat) (Sidebar.age_distribution data) /\
  sum_list_with snd (Sidebar.age_distribution data) = length data.
Proof.
  unfold Sidebar.age_distribution.
  set (ages := map age data).
  set (L := merge_sort Z.le (Sidebar.unique ages)).
  assert (HP : L ≡ₚ Sidebar.unique ages) by apply merge_sort_Permutation.
  assert (HN : NoDup L) by (rewrite HP; apply NoDup_unique).
  assert (HI : forall a, In a L <-> In a ages).
  { intros a. rewrite <- (in_unique ages a). split; apply Permutation_in;
      [exact HP|symmetry; exact HP]. }
  assert (Hin : forall a n,
             In (a, n) (map (fun a => (a, Sidebar.occurrences a ages)) L)
             <-> In a ages /\ n = Sidebar.occurrences a ages).
  { intros a n. rewrite in_map_iff. split.
    - intros (b & E & Hb). injection E as -> <-. split; [now apply HI|reflexivity].
    - intros [Ha ->]. exists a. split; [reflexivity|now apply HI]. }
  split; [|split; [exact Hin|split]].
  - rewrite map_map. simpl. rewrite map_id.
    apply strictly_sorted; [|exact HN].
    apply StronglySorted_merge_sort; apply _.
  - apply Forall_forall. intros [a n] Hbar. apply list_elem_of_In, Hin in Hbar.
    destruct Hbar as [Ha ->]. simpl. now apply occurrences_pos.
  - transitivity (sum_list_with (fun a => Sidebar.occurrences a ages) L).
    + clear. induction L as [|a L IH]; simpl; [reflexivity|]. now rewrite IH.
    + rewrite (sum_occurrences ages L HN) by (intros x; apply HI).
      unfold ages. apply length_map.
Qed.

(** X17. The state chart of the sidebar is shown exactly when the
    statistics report more than one distinct state; when shown, it gives
    for each state of the store the number of records with that state, and
    nothing for any other string. *)
Theorem state_chart_iff_several_states
        (s : session) (ov : Sidebar.overview) (n d : Z) (avg : number) :
  Sidebar.data_overview s = Some ov ->
  get_statistics s = Some (n, avg, d) ->
  (is_Some (Sidebar.state_chart ov) <-> 2 <= d) /\
  (forall m x,
     Sidebar.state_chart ov = Some m ->
     m !! x = if bool_decide (x ∈ map state (people_data s))
              then Some (Sidebar.occurrences x (map state (people_data s)))
              else None).
Proof.
  unfold Sidebar.data_overview, get_statistics.
  destruct (people_data s) as [|p data] eqn:D; [discriminate|].
  cbv zeta. set (states := map state (p :: data)).
  set (dd := Z.of_nat (size (list_to_set states : gset str))).
  assert (Hsize : dd = Z.of_nat (length (Sidebar.unique states))).
  { unfold dd. f_equal.
    rewrite <- (size_list_to_set (C := gset str) (Sidebar.unique states))
      by apply NoDup_unique.
    f_equal. apply set_eq. intros x.
    rewrite !elem_of_list_to_set, !list_elem_of_In. symmetry. apply in_unique. }
  intros E1.
  assert (W := f_equal (fun o => match o with Some x => x | None => ov end) E1).
  cbv beta iota in W. rewrite <- W. clear W E1.
  destruct (true_div _ _); [|discriminate]. cbn [mbind option_bind].
  intros E2.
  assert (Ed := f_equal (fun o => match o with
                                  | Some (_, _, x) => x
                                  | None => d
                                  end) E2).
  cbv beta iota in Ed. rewrite <- Ed, Hsize. clear Ed E2.
  unfold Sidebar.state_chart. cbv beta iota.
  split.
  - destruct (Nat.ltb_spec 1 (length (Sidebar.unique states))); split;
      intros H1.
    + lia.
    + eexists. reflexivity.
    + destruct H1 as [? H1]. discriminate H1.
    + exfalso. lia.
  - intros m x Hm.
    destruct (1 <? length (Sidebar.unique states))%nat; [|discriminate].
    injection Hm as <-. unfold Sidebar.state_counts. fold states.
    case_bool_decide as Hx.
    + apply elem_of_list_to_map.
      * rewrite fst_map_pair. apply NoDup_unique.
      * apply list_elem_of_In, in_map_iff. exists x.
        split; [reflexivity|]. now apply in_unique, list_elem_of_In.
    + apply not_elem_of_list_to_map.
      rewrite fst_map_pair, list_elem_of_In, in_unique.
      now rewrite <- list_elem_of_In.
Qed.

Lemma state_chart_iff_several_states_witness :
  exists ov,
    Sidebar.data_overview
      (after_submits [resident_form 30 "NY"; resident_form 41 "CA"]) = Some ov /\
    get_statistics
      (after_submits [resident_form 30 "NY"; resident_form 41 "CA"])
    = Some (2, PyFloat (strtod false 355 1), 2) /\
    is_Some (Sidebar.state_chart ov).
Proof.
  destruct (Sidebar.data_overview
              (after_submits [resident_form 30 "NY"; resident_form 41 "CA"]))
    as [ov|] eqn:E1; [|discriminate E1].
  assert (E2 : get_statistics
                 (after_submits [resident_form 30 "NY"; resident_form 41 "CA"])
               = Some (2, PyFloat (strtod false 355 1), 2))
    by (vm_compute; reflexivity).
  exists ov. split; [reflexivity|]. split; [exact E2|].
  apply (proj1 (state_chart_iff_several_states _ ov _ _ _ E1 E2)). lia.
Defined.

(* ===================================================================== *)
(** * What [main] renders from the store *)
(* ===================================================================== *)

(** X18. What the export section draws.  On an empty store it draws
    nothing.  On a store that is not empty the run gets through the
    section exactly when both exporters return a buffer, and then the
    section holds the two download buttons and the clear button, each
    download carrying what its exporter returned under a file name made of
    the fixed prefix, the time stamp and the extension; the two
    [if buffer:] tests never hide a button.  When [create_excel_file]
    raises nothing is drawn, when [create_word_file] raises only the Excel
    download is; so the clear button is there exactly when the run gets
    through.  Both exporters return, and the three widgets are drawn, on
    every store of fewer than 2^20 records whose texts hold only
    characters that XML allows. *)
Theorem export_section_draws (ts1 ts2 : str) (s : session) :
  (people_data s = [] ->
   export_section ts1 ts2 s = {| drawn := []; completed := true |}) /\
  (people_data s <> [] ->
   (completed (export_section ts1 ts2 s) = true <->
    exists wb doc,
      Excel.create_excel_file s = Returned (Some wb) /\
      Word.create_word_file s = Returned (Some doc)) /\
   (In ClearButton (drawn (export_section ts1 ts2 s)) <->
    completed (export_section ts1 ts2 s) = true) /\
   (forall wb doc,
      Excel.create_excel_file s = Returned (Some wb) ->
      Word.create_word_file s = Returned (Some doc) ->
      drawn (export_section ts1 ts2 s)
      = [ExcelDownload (excel_download ts1 wb);
         WordDownload (word_download ts2 doc); ClearButton] /\
      dl_file_name (excel_download ts1 wb)
      = lit "people_data_" ++ ts1 ++ lit ".xlsx" /\
      dl_file_name (word_download ts2 doc)
      = lit "people_profiles_" ++ ts2 ++ lit ".docx") /\
   (Excel.create_excel_file s = Raised ->
    drawn (export_section ts1 ts2 s) = []) /\
   (forall wb,
      Excel.create_excel_file s = Returned (Some wb) ->
      Word.create_word_file s = Raised ->
      drawn (export_section ts1 ts2 s)
      = [ExcelDownload (excel_download ts1 wb)]) /\
   (clean_store s -> Z.of_nat (length (people_data s)) < Excel.max_rows ->
    completed (export_section ts1 ts2 s) = true /\
    length (drawn (export_section ts1 ts2 s)) = 3%nat)).
Proof.
  split.
  - intros D. unfold export_section. now rewrite D.
  - intros Hne.
    assert (S : export_section ts1 ts2 s
                = match Excel.create_excel_file s with
                  | Raised => {| drawn := []; completed := false |}
                  | Returned excel_buffer =>
                      match Word.create_word_file s with
                      | Raised =>
                          {| drawn :=
                               match excel_buffer with
                               | Some b => [ExcelDownload (excel_download ts1 b)]
                               | None => []
                               end;
                             completed := false |}
                      | Returned word_buffer =>
                          {| drawn :=
                               match excel_buffer with
                               | Some b => [ExcelDownload (excel_download ts1 b)]
                               | None => []
                               end
                               ++ match word_buffer with
                                  | Some b => [WordDownload (word_download ts2 b)]
                                  | None => []
                                  end
                               ++ [ClearButton];
                             completed := true |}
                      end
                  end).
    { unfold export_section.
      destruct (people_data s); [contradiction|reflexivity]. }
    rewrite S. clear S.
    pose proof (excel_outcome s Hne) as OX.
    pose proof (word_outcome s Hne) as OW.
    assert (NX : Excel.create_excel_file s <> Returned None).
    { rewrite OX. destruct (_ >? _); [discriminate|].
      destruct (forallb legal_record _); [|discriminate].
      destruct (forallb _ _); discriminate. }
    assert (NW : Word.create_word_file s <> Returned None).
    { rewrite OW. destruct (forallb clean_record _); discriminate. }
    split; [|split; [|split; [|split; [|split]]]].
    + destruct (Excel.create_excel_file s) as [[wb|]|];
        [|contradiction|split; [discriminate|intros (? & ? & ? & _); discriminate]].
      destruct (Word.create_word_file s) as [[doc|]|];
        [|contradiction|split; [discriminate|intros (? & ? & _ & ?); discriminate]].
      split; [|reflexivity]. intros _. now exists wb, doc.
    + destruct (Excel.create_excel_file s) as [[wb|]|];
        [|contradiction|split; [intros []|discriminate]].
      destruct (Word.create_word_file s) as [[doc|]|]; [|contradiction|].
      * split; [reflexivity|]. intros _. simpl. tauto.
      * split; [|discriminate]. simpl. intros [H|[]]. discriminate H.
    + intros wb doc -> ->. repeat split.
    + intros ->. reflexivity.
    + intros wb -> ->. reflexivity.
    + intros Hclean Hrows.
      rewrite OX, OW. rewrite (forallb_of_Forall _ _ Hclean).
      replace (_ >? _) with false
        by (symmetry; rewrite Z.gtb_ltb; apply Z.ltb_ge; lia).
      assert (H : Forall (fun p => legal_record p = true
                                   /\ clean_record (cut_record p) = true)
                    (people_data s)).
      { eapply Forall_impl; [exact Hclean|]. simpl. apply clean_record_cut. }
      rewrite (forallb_of_Forall legal_record)
        by (eapply Forall_impl; [exact H|]; simpl; tauto).
      rewrite (forallb_of_Forall (fun p => clean_record (cut_record p)))
        by (eapply Forall_impl; [exact H|]; simpl; tauto).
      split; reflexivity.
Qed.

Lemma export_section_draws_witness :
  people_data (main (Submit control_form) fresh_session) <> [] /\
  Excel.create_excel_file (main (Submit control_form) fresh_session) = Raised /\
  drawn (export_section (lit "20240101_120000") (lit "20240101_120001")
           (main (Submit control_form) fresh_session)) = [] /\
  ~ In ClearButton
      (drawn (export_section (lit "20240101_120000") (lit "20240101_120001")
                (main (Submit control_form) fresh_session))).
Proof.
  assert (H : people_data (main (Submit control_form) fresh_session) <> [])
    by discriminate.
  assert (E : Excel.create_excel_file (main (Submit control_form) fresh_session)
              = Raised) by (vm_compute; reflexivity).
  destruct (export_section_draws (lit "20240101_120000")
              (lit "20240101_120001")
              (main (Submit control_form) fresh_session)) as [_ P].
  destruct (P H) as (_ & _ & _ & Hraised & _).
  split; [exact H|]. split; [exact E|]. split; [exact (Hraised E)|].
  rewrite (Hraised E). intros [].
Defined.

(** X19. A valid submit adds exactly one card at the end of the list
    that [display_people_list] shows, the card of the new record; the
    cards shown before stay, in their order.  On an empty store the card
    takes the place of the "no people" message. *)
Theorem display_grows_by_submit (i : form) (s : session) :
  valid_form i ->
  display_people_list (main (Submit i) s)
  = match people_data s with
    | [] => []
    | _ :: _ => display_people_list s
    end ++ [Markdown (person_card (make_person i))].
Proof.
  intros Hv. pose proof (validate_input_valid i Hv) as E.
  simpl. rewrite (on_submit_valid i s E).
  unfold display_people_list. cbn [people_data].
  destruct (people_data s) as [|p data]; [reflexivity|].
  simpl. f_equal. apply List.map_app.
Qed.

Lemma display_grows_by_submit_witness :
  valid_form ada_form /\
  display_people_list (main (Submit ada_form) fresh_session)
  = [Markdown (person_card ada)].
Proof.
  split; [exact ada_form_valid|].
  exact (display_grows_by_submit ada_form fresh_session ada_form_valid).
Defined.

Section StatisticsStep.

Lemma size_states_snoc (l : list str) (x : str) :
  size (list_to_set (l ++ [x]) : gset str)
  = if bool_decide (x ∈ l) then size (list_to_set l : gset str)
    else S (size (list_to_set l : gset str)).
Proof.
  rewrite list_to_set_snoc_L. case_bool_decide as Hx.
  - f_equal. apply set_eq. intros y.
    rewrite elem_of_union, elem_of_singleton, elem_of_list_to_set.
    split; [intros [?| ->]; assumption|tauto].
  - rewrite size_union.
    + rewrite size_singleton. lia.
    + apply disjoint_singleton_r. now rewrite elem_of_list_to_set.
Qed.

End StatisticsStep.

(** X20. A valid submit raises the count of the statistics by exactly one
    and the number of distinct states by one when the state of the new
    record, trimmed, is not yet in the store, and by nothing when it is. *)
Theorem statistics_after_submit
        (i : form) (s : session) (n n' d d' : Z) (avg avg' : number) :
  valid_form i ->
  get_statistics s = Some (n, avg, d) ->
  get_statistics (main (Submit i) s) = Some (n', avg', d') ->
  n' = n + 1 /\
  d' = if bool_decide (strip (f_state i) ∈ map state (people_data s))
       then d else d + 1.
Proof.
  intros Hv E1 E2. pose proof (validate_input_valid i Hv) as E.
  simpl in E2. rewrite (on_submit_valid i s E) in E2.
  unfold get_statistics in E1, E2. cbn [people_data] in E2.
  assert (Hsnoc : map state (people_data s ++ [make_person i])
                  = map state (people_data s) ++ [strip (f_state i)])
    by (now rewrite map_app).
  assert (Hlen : Z.of_nat (length (people_data s ++ [make_person i]))
                 = Z.of_nat (length (people_data s)) + 1)
    by (rewrite length_app; simpl; lia).
  pose proof (size_states_snoc (map state (people_data s)) (strip (f_state i)))
    as Hsize.
  rewrite <- Hsnoc in Hsize.
  set (d1 := size (list_to_set (map state (people_data s)) : gset str)) in *.
  set (d2 := size (list_to_set (map state (people_data s ++ [make_person i]))
                   : gset str)) in *.
  set (n1 := Z.of_nat (length (people_data s))) in *.
  set (n2 := Z.of_nat (length (people_data s ++ [make_person i]))) in *.
  assert (R1 : n = n1 /\ d = Z.of_nat d1).
  { destruct (people_data s) as [|p data] eqn:D.
    - injection E1 as <- _ <-. now split.
    - cbv zeta in E1. fold d1 n1 in E1.
      destruct (true_div _ n1); [|discriminate E1].
      cbn [mbind option_bind] in E1. injection E1 as <- _ <-. now split. }
  assert (R2 : n' = n2 /\ d' = Z.of_nat d2).
  { destruct (people_data s ++ [make_person i]) as [|p data] eqn:D.
    - now apply app_eq_nil in D as [_ D].
    - cbv zeta in E2. fold d2 n2 in E2.
      destruct (true_div _ n2); [|discriminate E2].
      cbn [mbind option_bind] in E2. injection E2 as <- _ <-. now split. }
  destruct R1 as [-> ->]. destruct R2 as [-> ->].
  split; [lia|]. rewrite Hsize. case_bool_decide; lia.
Qed.

Lemma statistics_after_submit_witness :
  valid_form (resident_form 41 "CA") /\
  get_statistics (after_submits [resident_form 30 "NY"])
  = Some (1, PyFloat (strtod false 300 1), 1) /\
  get_statistics (main (Submit (resident_form 41 "CA"))
                       (after_submits [resident_form 30 "NY"]))
  = Some (2, PyFloat (strtod false 355 1), 2) /\
  2 = 1 + 1.
Proof.
  assert (H1 : valid_form (resident_form 41 "CA")).
  { split.
    - unfold any_blank, blank. vm_compute. intuition discriminate.
    - unfold age_in_range. simpl. lia. }
  assert (H2 : get_statistics (after_submits [resident_form 30 "NY"])
               = Some (1, PyFloat (strtod false 300 1), 1))
    by (vm_compute; reflexivity).
  assert (H3 : get_statistics (main (Submit (resident_form 41 "CA"))
                                    (after_submits [resident_form 30 "NY"]))
               = Some (2, PyFloat (strtod false 355 1), 2))
    by (vm_compute; reflexivity).
  split; [exact H1|]. split; [exact H2|]. split; [exact H3|].
  exact (proj1 (statistics_after_submit _ _ _ _ _ _ _ _ H1 H2 H3)).
Defined.
